(** * ToDoListPY: Task, ToDoList and the menu of main.py

    A shallow embedding of the two classes of [main.py] (the [Task] entity
    and the [ToDoList] store) and of its menu loop [main], together with the
    part of Python's standard library they call: [str.lower],
    [str.capitalize], [str.strip], [str.split], [str.join],
    [datetime.strptime]/[strftime] for the format [%Y-%m-%d],
    [json.dump]/[json.load], [input] and [print].

    Conventions of the model.
    - Text is a [string] of 8-bit characters; case mapping acts on the ASCII
      letters and leaves every other character alone.
    - Arguments carry the types the program gives them: descriptions, date
      texts, priorities and tags are strings, [completed] is a boolean.
    - Exceptions are values of [exn]; [isinstance] follows the class
      hierarchy ([InvalidDateError], [InvalidPriorityError] and
      [TaskNotFoundError] derive from [Exception], lines 8-15).
    - Methods of [ToDoList] run in a state-and-exception monad over the
      object's [tasks] list and the file system; a raised exception keeps
      the state reached so far, as in Python.
    - The Tasks of a store are distinct objects, held by value: the menu and
      [load_from_file] build a new Task for every entry.
    - [strftime] prints the year as the C library does on Linux, without
      padding; [str] of a date pads it to four digits.
    - A file holds the JSON document that was dumped into it, an array of
      task records whose values have the types of the fields; every file
      name can be written.
    - The keyboard is the list of the lines still to be read, the screen the
      list of the texts printed and of the prompts; [input] at the end of
      the lines ends the program, as the [EOFError] nothing catches does.
      White space is the ASCII white space. *)

From Stdlib Require Import ZArith Ascii String List Bool Lia.
From stdpp Require Import base gmap strings list.

Local Open Scope string_scope.
Local Open Scope Z_scope.

(* ===================================================================== *)
(** ** Python strings *)
(* ===================================================================== *)

Module PyStr.

Definition code (c : ascii) : Z := Z.of_nat (nat_of_ascii c).
Definition chr (n : Z) : ascii := ascii_of_nat (Z.to_nat n).

Definition is_upper (c : ascii) : bool := (65 <=? code c) && (code c <=? 90).
Definition is_lower (c : ascii) : bool := (97 <=? code c) && (code c <=? 122).
Definition is_digit (c : ascii) : bool := (48 <=? code c) && (code c <=? 57).

Definition lower_char (c : ascii) : ascii :=
  if is_upper c then chr (code c + 32) else c.
Definition upper_char (c : ascii) : ascii :=
  if is_lower c then chr (code c - 32) else c.

(** [s.lower()] *)
Fixpoint lower (s : string) : string :=
  match s with
  | EmptyString => EmptyString
  | String c t => String (lower_char c) (lower t)
  end.

(** [s.capitalize()]: first character upper-cased, the rest lower-cased. *)
Definition capitalize (s : string) : string :=
  match s with
  | EmptyString => EmptyString
  | String c t => String (upper_char c) (lower t)
  end.

(** [a in b] for two strings: [a] occurs in [b] as a substring. *)
Fixpoint contains (a b : string) : bool :=
  String.prefix a b ||
  match b with
  | EmptyString => false
  | String _ t => contains a t
  end.

(** Two texts that differ at most in the case of their letters, compared
    character by character. *)
Fixpoint eq_nocase (a b : string) : bool :=
  match a, b with
  | EmptyString, EmptyString => true
  | String x a', String y b' =>
      (Ascii.eqb x y || Ascii.eqb (lower_char x) y || Ascii.eqb x (lower_char y))
      && eq_nocase a' b'
  | _, _ => false
  end.

End PyStr.

(* ===================================================================== *)
(** ** Exceptions *)
(* ===================================================================== *)

Inductive exn : Set :=
| Exception
| ValueError
| TypeError
| AttributeError
| LookupError
| KeyError
| OSError
| FileNotFoundError
| JSONDecodeError
| InvalidDateError        (* line 8 *)
| InvalidPriorityError    (* line 11 *)
| TaskNotFoundError.      (* line 14 *)

#[global] Instance exn_eq_dec : EqDecision exn.
Proof. solve_decision. Defined.

(** The direct base class of an exception class. *)
Definition base (e : exn) : option exn :=
  match e with
  | Exception => None
  | LookupError | ValueError | TypeError | AttributeError | OSError => Some Exception
  | KeyError => Some LookupError
  | FileNotFoundError => Some OSError
  | JSONDecodeError => Some ValueError
  | InvalidDateError | InvalidPriorityError | TaskNotFoundError => Some Exception
  end.

(** [isinstance(e, cls)]: [cls] is the class of [e] or one of its ancestors
    (the hierarchy above has depth three). *)
Definition isinstance (e cls : exn) : bool :=
  bool_decide (e = cls)
  || bool_decide (base e = Some cls)
  || bool_decide (base e ≫= base = Some cls).

Inductive result (A : Type) : Type :=
| Ok (a : A)
| Raise (e : exn).
Arguments Ok {A} a.
Arguments Raise {A} e.

(* ===================================================================== *)
(** ** datetime, for the format "%Y-%m-%d" *)
(* ===================================================================== *)

Module datetime.
Import PyStr.

(** The value [strptime] returns for a format without time directives:
    a [datetime] at midnight, so only the calendar date is kept. *)
Record date : Set := mkdate { year : Z; month : Z; day : Z }.

#[global] Instance date_eq_dec : EqDecision date.
Proof. solve_decision. Defined.

Definition MINYEAR : Z := 1.
Definition MAXYEAR : Z := 9999.

Definition is_leap (y : Z) : bool :=
  (y mod 4 =? 0) && (negb (y mod 100 =? 0) || (y mod 400 =? 0)).

Definition days_in_month (y m : Z) : Z :=
  if (m =? 2) && is_leap y then 29
  else match m with
       | 1 | 3 | 5 | 7 | 8 | 10 | 12 => 31
       | 4 | 6 | 9 | 11 => 30
       | 2 => 28
       | _ => -1
       end.

(** The range checks of the [date]/[datetime] constructors. *)
Definition check_date_fields (y m d : Z) : bool :=
  (MINYEAR <=? y) && (y <=? MAXYEAR) &&
  (1 <=? m) && (m <=? 12) &&
  (1 <=? d) && (d <=? days_in_month y m).

Definition valid (dt : date) : Prop :=
  check_date_fields (year dt) (month dt) (day dt) = true.

(** *** The regular expression [strptime] compiles the format to.

    [%Y] is [\d\d\d\d], [%m] is [1[0-2]|0[1-9]|[1-9]] and [%d] is
    [3[0-1]|[1-2]\d|0[1-9]|[1-9]| [1-9]]; the format's two hyphens are
    literals.  Matching is Python's: alternatives in order, backtracking
    into the continuation. *)
Inductive regex : Set :=
| Lit (c : ascii)
| Range (lo hi : ascii)
| Digit
| Cat (r1 r2 : regex)
| Alt (r1 r2 : regex).

Definition in_range (lo hi c : ascii) : bool :=
  (code lo <=? code c) && (code c <=? code hi).

Definition one {A} (p : ascii -> bool) (s : string)
           (k : string -> string -> option A) : option A :=
  match s with
  | String c t => if p c then k (String c EmptyString) t else None
  | EmptyString => None
  end.

(** [rmatch r s k]: match [r] at the start of [s] and hand the matched
    text and the remaining input to [k]; [None] makes the matcher try the
    next alternative. *)
Fixpoint rmatch {A} (r : regex) (s : string)
         (k : string -> string -> option A) : option A :=
  match r with
  | Lit c => one (Ascii.eqb c) s k
  | Range lo hi => one (in_range lo hi) s k
  | Digit => one is_digit s k
  | Cat r1 r2 =>
      rmatch r1 s (fun a t => rmatch r2 t (fun b u => k (a ++ b) u))
  | Alt r1 r2 =>
      match rmatch r1 s k with
      | Some v => Some v
      | None => rmatch r2 s k
      end
  end.

Definition re_Y : regex := Cat Digit (Cat Digit (Cat Digit Digit)).
Definition re_m : regex :=
  Alt (Cat (Lit "1") (Range "0" "2"))
 (Alt (Cat (Lit "0") (Range "1" "9"))
      (Range "1" "9")).
Definition re_d : regex :=
  Alt (Cat (Lit "3") (Range "0" "1"))
 (Alt (Cat (Range "1" "2") Digit)
 (Alt (Cat (Lit "0") (Range "1" "9"))
 (Alt (Range "1" "9")
      (Cat (Lit " ") (Range "1" "9"))))).

(** [format_regex.match(data_string)]: the groups Y, m, d and the text
    left after the match. *)
Definition format_match (s : string) : option (string * string * string * string) :=
  rmatch re_Y s (fun Y s1 =>
  rmatch (Lit "-") s1 (fun _ s2 =>
  rmatch re_m s2 (fun m s3 =>
  rmatch (Lit "-") s3 (fun _ s4 =>
  rmatch re_d s4 (fun d rest =>
  Some (Y, m, d, rest)))))).

(** [int(text)] on a captured group: digits, after optional blanks. *)
Fixpoint digits_value (acc : Z) (s : string) : Z :=
  match s with
  | EmptyString => acc
  | String c t => digits_value (10 * acc + (code c - 48)) t
  end.

Fixpoint lstrip (s : string) : string :=
  match s with
  | String c t => if Ascii.eqb c " " then lstrip t else s
  | EmptyString => EmptyString
  end.

Definition int (s : string) : Z := digits_value 0 (lstrip s).

(** [datetime.strptime(s, "%Y-%m-%d")].  [ValueError] when the text does
    not match the format, when text remains after the match, or when the
    fields are not a calendar date. *)
Definition strptime (s : string) : result date :=
  match format_match s with
  | None => Raise ValueError
  | Some (Y, m, d, rest) =>
      match rest with
      | String _ _ => Raise ValueError
      | EmptyString =>
          if check_date_fields (int Y) (int m) (int d)
          then Ok (mkdate (int Y) (int m) (int d))
          else Raise ValueError
      end
  end.

Definition digit_char (n : Z) : ascii := chr (48 + n mod 10).

Definition fmt2 (n : Z) : string :=
  String (digit_char (n / 10)) (String (digit_char n) EmptyString).
Definition fmt4 (n : Z) : string :=
  String (digit_char (n / 1000)) (String (digit_char (n / 100)) (fmt2 n)).

(** [%Y] as the C library prints it (glibc): the year in decimal, without
    padding, so 999 and not 0999. *)
Definition fmtY (n : Z) : string :=
  if n <? 10 then String (digit_char n) EmptyString
  else if n <? 100 then fmt2 n
  else if n <? 1000 then String (digit_char (n / 100)) (fmt2 n)
  else fmt4 n.

(** [dt.strftime("%Y-%m-%d")]: the year as [%Y] prints it, month and day on
    two digits. *)
Definition strftime (dt : date) : string :=
  fmtY (year dt) ++ "-" ++ fmt2 (month dt) ++ "-" ++ fmt2 (day dt).

End datetime.

Import PyStr datetime.


(* ===================================================================== *)
(** ** Exceptions as results *)
(* ===================================================================== *)

#[global] Instance result_ret : MRet result := fun A a => Ok a.
#[global] Instance result_bind : MBind result := fun A B f m =>
  match m with
  | Ok a => f a
  | Raise e => Raise e
  end.

(** [try: body except cls: handler] *)
Definition try_except {A} (body : result A) (cls : exn) (handler : result A) : result A :=
  match body with
  | Ok a => Ok a
  | Raise e => if isinstance e cls then handler else Raise e
  end.

(* ===================================================================== *)
(** ** class Task (lines 17-57) *)
(* ===================================================================== *)

Record Task : Set := mkTask {
  description : string;
  due_date : date;
  priority : string;
  completed : bool;
  tags : list string
}.

#[global] Instance Task_eq_dec : EqDecision Task.
Proof. solve_decision. Defined.

Definition priorities : list string := ["High"; "Medium"; "Low"].

(** [tags or []], with [None] for the default argument. *)
Definition tags_or_empty (tags : option (list string)) : list string :=
  match tags with
  | Some (x :: l) => x :: l
  | Some [] | None => []
  end.

(** [Task.__init__] (lines 18-28).  The assignments run in order inside the
    [try]; the handler catches [ValueError] only. *)
Definition Task_init (description due_date priority : string)
           (tags : option (list string)) (completed : bool) : result Task :=
  try_except
    (due ← strptime due_date;
     let priority := capitalize priority in
     if negb (bool_decide (priority ∈ priorities))
     then Raise InvalidPriorityError
     else Ok (mkTask description due priority completed (tags_or_empty tags)))
    ValueError
    (Raise InvalidDateError).

(** The record [to_dict] builds and [json.load] gives back for one task: a
    dict in which each of the five keys is absent or holds a value of its
    field's type. *)
Record TaskDict : Set := mkDict {
  k_description : option string;
  k_due_date : option string;
  k_priority : option string;
  k_completed : option bool;
  k_tags : option (list string)
}.

(** [Task.to_dict] (lines 30-37) *)
Definition to_dict (self : Task) : TaskDict :=
  {| k_description := Some (description self);
     k_due_date := Some (strftime (due_date self));
     k_priority := Some (priority self);
     k_completed := Some (completed self);
     k_tags := Some (tags self) |}.

(** [data[key]]: [KeyError] when the key is absent. *)
Definition getitem {A} (v : option A) : result A :=
  match v with
  | Some a => Ok a
  | None => Raise KeyError
  end.

(** [data.get(key, dflt)] *)
Definition get {A} (v : option A) (dflt : A) : A := default dflt v.

(** [Task.from_dict] (lines 39-47) *)
Definition from_dict (data : TaskDict) : result Task :=
  description ← getitem (k_description data);
  due_date ← getitem (k_due_date data);
  priority ← getitem (k_priority data);
  let completed := get (k_completed data) false in
  let tags := get (k_tags data) [] in
  Task_init description due_date priority (Some tags) completed.

(** What the constructor establishes and no method breaks: the due date is
    a calendar date and the priority is one of the three names. *)
Definition Task_ok (t : Task) : bool :=
  check_date_fields (year (due_date t)) (month (due_date t)) (day (due_date t))
  && bool_decide (priority t ∈ priorities).

(** A priority text that is High, Medium or Low up to the case of its
    letters. *)
Definition priority_text_ok (p : string) : bool :=
  existsb (eq_nocase p) priorities.

(** A date text that parses under the fixed format. *)
Definition matches_format (s : string) : bool :=
  match strptime s with
  | Ok _ => true
  | Raise _ => false
  end.

(* ===================================================================== *)
(** ** class ToDoList (lines 61-105) *)
(* ===================================================================== *)

(** A file holds the JSON document [json.dump] wrote, an array of task
    records, or text that is no JSON document.  The layout of the text
    ([indent=4]) is the library's affair: [json.load] returns the document
    [json.dump] was given.  JSON documents of another shape (a number, an
    array of numbers, a record with a number for a date) are not files of
    this model, and nothing below speaks of them. *)
Inductive file : Set :=
| JsonDoc (records : list TaskDict)
| NotJson.

Record state : Type := mkstate {
  tasks : list Task;               (* self.tasks *)
  files : gmap string file
}.

Definition M (A : Type) : Type := state -> result A * state.

#[global] Instance M_ret : MRet M := fun A a σ => (Ok a, σ).
#[global] Instance M_bind : MBind M := fun A B f m σ =>
  match m σ with
  | (Ok a, σ') => f a σ'
  | (Raise e, σ') => (Raise e, σ')
  end.

Definition raise {A} (e : exn) : M A := fun σ => (Raise e, σ).
Definition lift {A} (r : result A) : M A := fun σ => (r, σ).
Definition get_tasks : M (list Task) := fun σ => (Ok (tasks σ), σ).
Definition set_tasks (l : list Task) : M unit :=
  fun σ => (Ok tt, mkstate l (files σ)).

(** [try: body except cls: handler] for a method body. *)
Definition try_catch {A} (body : M A) (cls : exn) (handler : M A) : M A := fun σ =>
  match body σ with
  | (Ok a, σ') => (Ok a, σ')
  | (Raise e, σ') => if isinstance e cls then handler σ' else (Raise e, σ')
  end.

(** [ToDoList.__init__] *)
Definition ToDoList_init (fs : gmap string file) : state := mkstate [] fs.

(** [add_task] *)
Definition add_task (task : Task) : M unit :=
  l ← get_tasks; set_tasks (l ++ [task]).

(** [for task in l: body], where the body may [return]; [i] is the position
    of [task] in the list being scanned. *)
Fixpoint for_each {A} (i : nat) (l : list Task) (body : nat -> Task -> M (option A))
  : M (option A) :=
  match l with
  | [] => mret None
  | task :: l' =>
      r ← body i task;
      match r with
      | Some a => mret (Some a)
      | None => for_each (S i) l' body
      end
  end.

(** [l.remove(x)]: drops the first element equal to [x]; [ValueError] when
    there is none. *)
Fixpoint list_remove (x : Task) (l : list Task) : result (list Task) :=
  match l with
  | [] => Raise ValueError
  | y :: l' => if bool_decide (y = x) then Ok l' else (r ← list_remove x l'; Ok (y :: r))
  end.

(** [remove_task] (lines 68-73) *)
Definition remove_task (description0 : string) : M unit :=
  l ← get_tasks;
  r ← for_each 0 l (fun _ task =>
         if String.eqb (description task) description0
         then (cur ← get_tasks;
               cur' ← lift (list_remove task cur);
               set_tasks cur';;
               mret (Some tt))
         else mret None);
  match r with
  | Some _ => mret tt
  | None => raise TaskNotFoundError
  end.

Definition set_completed (t : Task) : Task :=
  mkTask (description t) (due_date t) (priority t) true (tags t).

(** [mark_completed] (lines 75-80).  The assignment [task.completed = True]
    changes the object at the scanned position. *)
Definition mark_completed (description0 : string) : M unit :=
  l ← get_tasks;
  r ← for_each 0 l (fun i task =>
         if String.eqb (description task) description0
         then (cur ← get_tasks;
               set_tasks (<[i := set_completed task]> cur);;
               mret (Some tt))
         else mret None);
  match r with
  | Some _ => mret tt
  | None => raise TaskNotFoundError
  end.

(** [v.lower()] for an argument that may be [None]. *)
Definition lower_of (v : option string) : result string :=
  match v with
  | Some s => Ok (lower s)
  | None => Raise AttributeError
  end.

(** [[t for t in l if cond(t)]] *)
Fixpoint comprehension (l : list Task) (cond : Task -> result bool) : result (list Task) :=
  match l with
  | [] => Ok []
  | t :: l' =>
      b ← cond t;
      r ← comprehension l' cond;
      Ok (if (b : bool) then t :: r else r)
  end.

(** [datetime.strptime(value, "%Y-%m-%d")] for an argument that may be
    [None]. *)
Definition strptime_of (v : option string) : result date :=
  match v with
  | Some s => strptime s
  | None => Raise TypeError
  end.

(** [list_tasks] (lines 82-93) *)
Definition list_tasks (filter_by value : option string) : M (list Task) :=
  l ← get_tasks;
  let filtered := l in
  if bool_decide (filter_by = Some "priority") then
    lift (comprehension l (fun t =>
            v ← lower_of value; Ok (String.eqb (lower (priority t)) v)))
  else if bool_decide (filter_by = Some "due_date") then
    date_obj ← lift (strptime_of value);
    lift (comprehension l (fun t => Ok (bool_decide (due_date t = date_obj))))
  else if bool_decide (filter_by = Some "tag") then
    lift (comprehension l (fun t =>
            v ← lower_of value; Ok (bool_decide (v ∈ map lower (tags t)))))
  else if bool_decide (filter_by = Some "keyword") then
    lift (comprehension l (fun t =>
            v ← lower_of value; Ok (contains v (lower (description t)))))
  else mret filtered.

(** [open(filename, "w")] followed by [json.dump(doc, f, indent=4)], on a
    path that can be written. *)
Definition write_json (filename : string) (doc : list TaskDict) : M unit :=
  fun σ => (Ok tt, mkstate (tasks σ) (<[filename := JsonDoc doc]> (files σ))).

(** [open(filename, "r")] followed by [json.load(f)] *)
Definition read_json (filename : string) : M (list TaskDict) := fun σ =>
  match files σ !! filename with
  | None => (Raise FileNotFoundError, σ)
  | Some NotJson => (Raise JSONDecodeError, σ)
  | Some (JsonDoc doc) => (Ok doc, σ)
  end.

(** [save_to_file] (lines 95-97) *)
Definition save_to_file (filename : string) : M unit :=
  l ← get_tasks;
  write_json filename (map to_dict l).

(** [[Task.from_dict(task) for task in data]] *)
Fixpoint from_dicts (data : list TaskDict) : result (list Task) :=
  match data with
  | [] => Ok []
  | d :: data' => t ← from_dict d; l ← from_dicts data'; Ok (t :: l)
  end.

(** [load_from_file] (lines 99-105) *)
Definition load_from_file (filename : string) : M unit :=
  try_catch
    (data ← read_json filename;
     l ← lift (from_dicts data);
     set_tasks l)
    FileNotFoundError
    (set_tasks []).

(** ** The menu loop's handler (line 190) *)

(** The exceptions the menu loop reports before it goes on; any other ends
    the program. *)
Definition menu_handles (e : exn) : bool :=
  isinstance e InvalidDateError
  || isinstance e InvalidPriorityError
  || isinstance e TaskNotFoundError.

(* ===================================================================== *)
(** ** Text on the console: colours, strip, split, join *)
(* ===================================================================== *)

(** The line feed, written [\n] in the source. *)
Definition nl : string := String (ascii_of_nat 10) EmptyString.

(** colorama's escape sequences: ESC, an opening bracket, the code, m. *)
Definition CSI : string := String (ascii_of_nat 27) "[".

Module Fore.
Definition RED : string := CSI +:+ "31m".
Definition GREEN : string := CSI +:+ "32m".
Definition YELLOW : string := CSI +:+ "33m".
End Fore.

Module Style.
Definition RESET_ALL : string := CSI +:+ "0m".
End Style.

(** White space among the ASCII characters: tab to carriage return, the four
    separators 28 to 31, and the blank. *)
Definition is_space (c : ascii) : bool :=
  ((9 <=? code c) && (code c <=? 13)) || ((28 <=? code c) && (code c <=? 32)).

Fixpoint lstrip_ws (s : string) : string :=
  match s with
  | String c t => if is_space c then lstrip_ws t else s
  | EmptyString => EmptyString
  end.

Fixpoint rstrip_ws (s : string) : string :=
  match s with
  | String c t =>
      match rstrip_ws t with
      | EmptyString => if is_space c then EmptyString else String c EmptyString
      | t' => String c t'
      end
  | EmptyString => EmptyString
  end.

(** [s.strip()] *)
Definition strip (s : string) : string := rstrip_ws (lstrip_ws s).

(** [s.split(",")]: the pieces between the commas, empty ones included. *)
Fixpoint split_comma (s : string) : list string :=
  match s with
  | EmptyString => [EmptyString]
  | String c t =>
      if Ascii.eqb c ","
      then EmptyString :: split_comma t
      else match split_comma t with
           | x :: l => String c x :: l
           | [] => [String c EmptyString]
           end
  end.

(** [sep.join(l)] *)
Fixpoint join (sep : string) (l : list string) : string :=
  match l with
  | [] => EmptyString
  | [x] => x
  | x :: l' => x +:+ sep +:+ join sep l'
  end.

(** [str(d)] for a date: year on four digits, month and day on two. *)
Definition isoformat (d : date) : string :=
  fmt4 (year d) +:+ "-" +:+ fmt2 (month d) +:+ "-" +:+ fmt2 (day d).

(** [Task.__str__] (lines 49-57) *)
Definition Task_str (self : Task) : string :=
  let color :=
    if String.eqb (priority self) "High" then Fore.RED
    else if String.eqb (priority self) "Medium" then Fore.YELLOW
    else if String.eqb (priority self) "Low" then Fore.GREEN
    else Style.RESET_ALL in
  let status := if completed self then "✅" else "❌" in
  let tags_str :=
    match tags self with
    | [] => "No tags"
    | _ :: _ => join ", " (tags self)
    end in
  status +:+ " " +:+ color +:+ description self +:+ Style.RESET_ALL
  +:+ " | Due: " +:+ isoformat (due_date self)
  +:+ " | Priority: " +:+ priority self
  +:+ " | Tags: " +:+ tags_str.

(* ===================================================================== *)
(** ** main (lines 109-191) *)
(* ===================================================================== *)

(** What the program writes: the argument of a [print], or the prompt of an
    [input]. *)
Inductive output : Set :=
| Print (s : string)
| Prompt (s : string).

(** The store, the lines still to be read from the keyboard and what has
    been written so far. *)
Record world : Type := mkworld {
  store : state;
  stdin : list string;
  stdout : list output
}.

(** A step of the program ends with a value, with an exception and the text
    it carries, or at the end of the input ([input] raising [EOFError], which
    nothing catches). *)
Inductive outcome (A : Type) : Type :=
| Done (a : A)
| Failed (e : exn) (msg : string)
| EndOfInput.
Arguments Done {A} a.
Arguments Failed {A} e msg.
Arguments EndOfInput {A}.

Definition IO (A : Type) : Type := world -> outcome A * world.

#[global] Instance IO_ret : MRet IO := fun A a w => (Done a, w).
#[global] Instance IO_bind : MBind IO := fun A B f m w =>
  match m w with
  | (Done a, w') => f a w'
  | (Failed e msg, w') => (Failed e msg, w')
  | (EndOfInput, w') => (EndOfInput, w')
  end.

Definition print (s : string) : IO unit := fun w =>
  (Done tt, mkworld (store w) (stdin w) (stdout w ++ [Print s])%list).

Definition input (prompt : string) : IO string := fun w =>
  let out := (stdout w ++ [Prompt prompt])%list in
  match stdin w with
  | line :: rest => (Done line, mkworld (store w) rest out)
  | [] => (EndOfInput, mkworld (store w) [] out)
  end.

(** The text of the exceptions the program raises itself (lines 24, 28, 73
    and 80); [description] is the argument of the method that raised.  The
    exceptions of the library, whose text the program never prints, carry
    none here. *)
Definition message (e : exn) (description : string) : string :=
  match e with
  | InvalidDateError => "Date must be in YYYY-MM-DD format."
  | InvalidPriorityError => "Priority must be High, Medium, or Low."
  | TaskNotFoundError => "Task '" +:+ description +:+ "' not found."
  | _ => EmptyString
  end.

(** A constructor call. *)
Definition construct {A} (r : result A) : IO A := fun w =>
  match r with
  | Ok a => (Done a, w)
  | Raise e => (Failed e (message e EmptyString), w)
  end.

(** A method call on [todo]; [arg] is the description it was given, if
    any. *)
Definition call {A} (arg : string) (m : M A) : IO A := fun w =>
  match m (store w) with
  | (Ok a, σ) => (Done a, mkworld σ (stdin w) (stdout w))
  | (Raise e, σ) => (Failed e (message e arg), mkworld σ (stdin w) (stdout w))
  end.

(** [for task in tasks: print(task)] *)
Fixpoint print_tasks (l : list Task) : IO unit :=
  match l with
  | [] => mret tt
  | task :: l' => print (Task_str task);; print_tasks l'
  end.

Definition menu : string :=
  nl +:+ "=== TO-DO LIST MENU ===" +:+ nl
  +:+ "1. Add Task" +:+ nl
  +:+ "2. List All Tasks" +:+ nl
  +:+ "3. Filter Tasks by Priority" +:+ nl
  +:+ "4. Filter Tasks by Due Date" +:+ nl
  +:+ "5. Filter Tasks by Tag" +:+ nl
  +:+ "6. Search Tasks by Keyword" +:+ nl
  +:+ "7. Mark Task as Completed" +:+ nl
  +:+ "8. Delete Task" +:+ nl
  +:+ "9. Exit" +:+ nl.

(** Lines 135-136: the tags typed on one line, separated by commas. *)
Definition read_tags (line : string) : list string :=
  let tags := split_comma (strip line) in
  List.map strip (List.filter (fun t => negb (String.eqb (strip t) EmptyString)) tags).

(** How an iteration of the loop ends. *)
Inductive next : Set := Continue | Break.

(** The [if]/[elif] chain on the choice (lines 131-188). *)
Definition choose (choice : string) : IO next :=
  if String.eqb choice "1" then
    line ← input "Description: "; let desc := strip line in
    line ← input "Due date (YYYY-MM-DD): "; let date := strip line in
    line ← input "Priority (Low/Medium/High): "; let priority := strip line in
    line ← input "Tags (comma-separated): "; let tags := read_tags line in
    task ← construct (Task_init desc date priority (Some tags) false);
    call EmptyString (add_task task);;
    print (Fore.GREEN +:+ "Task added." +:+ nl);;
    mret Continue
  else if String.eqb choice "2" then
    tasks ← call EmptyString (list_tasks None None);
    match tasks with
    | [] => print "No tasks found."
    | _ :: _ => mret tt
    end;;
    print_tasks tasks;;
    mret Continue
  else if String.eqb choice "3" then
    line ← input "Enter priority to filter (Low/Medium/High): ";
    let priority := strip line in
    tasks ← call EmptyString (list_tasks (Some "priority") (Some priority));
    print_tasks tasks;;
    mret Continue
  else if String.eqb choice "4" then
    line ← input "Enter due date (YYYY-MM-DD): "; let date := strip line in
    tasks ← call EmptyString (list_tasks (Some "due_date") (Some date));
    print_tasks tasks;;
    mret Continue
  else if String.eqb choice "5" then
    line ← input "Enter tag to filter: "; let tag := strip line in
    tasks ← call EmptyString (list_tasks (Some "tag") (Some tag));
    print_tasks tasks;;
    mret Continue
  else if String.eqb choice "6" then
    line ← input "Enter keyword to search: "; let keyword := strip line in
    tasks ← call EmptyString (list_tasks (Some "keyword") (Some keyword));
    print_tasks tasks;;
    mret Continue
  else if String.eqb choice "7" then
    line ← input "Enter task description to mark as completed: ";
    let desc := strip line in
    call desc (mark_completed desc);;
    print (Fore.GREEN +:+ "Marked as completed." +:+ nl);;
    mret Continue
  else if String.eqb choice "8" then
    line ← input "Enter task description to delete: "; let desc := strip line in
    call desc (remove_task desc);;
    print (Fore.RED +:+ "Task deleted." +:+ nl);;
    mret Continue
  else if String.eqb choice "9" then
    call EmptyString (save_to_file "tasks.json");;
    print "Tasks saved. Goodbye!";;
    mret Break
  else
    print (Fore.YELLOW +:+ "Invalid option. Try again.");;
    mret Continue.

(** [try: body except (InvalidDateError, InvalidPriorityError,
    TaskNotFoundError) as e: print(Fore.RED + f"Error: {e}")] (lines 130 and
    190-191) *)
Definition try_menu (body : IO next) : IO next := fun w =>
  match body w with
  | (Failed e msg, w') =>
      if menu_handles e
      then (print (Fore.RED +:+ "Error: " +:+ msg);; mret Continue) w'
      else (Failed e msg, w')
  | r => r
  end.

(** One turn of the [while True] loop (lines 126-191). *)
Definition iteration : IO next :=
  print menu;;
  line ← input "Choose an option: "; let choice := strip line in
  try_menu (choose choice).

(** How the program ends: after choice 9, by an exception nothing catches,
    or at the end of the input. *)
Inductive ending : Set :=
| Exited
| Crashed (e : exn)
| InputClosed
| OutOfFuel.

Fixpoint main_loop (fuel : nat) (w : world) : ending * world :=
  match fuel with
  | O => (OutOfFuel, w)
  | S fuel' =>
      match iteration w with
      | (Done Continue, w') => main_loop fuel' w'
      | (Done Break, w') => (Exited, w')
      | (Failed e _, w') => (Crashed e, w')
      | (EndOfInput, w') => (InputClosed, w')
      end
  end.

(** [main] on the files [fs] and the lines [lines] typed at the keyboard.
    Every turn of the loop reads a line, so one turn more than there are
    lines is enough. *)
Definition main (fs : gmap string file) (lines : list string) : ending * world :=
  match call EmptyString (load_from_file "tasks.json") (mkworld (ToDoList_init fs) lines []) with
  | (Done _, w) => main_loop (S (length lines)) w
  | (Failed e _, w) => (Crashed e, w)
  | (EndOfInput, w) => (InputClosed, w)
  end.

(* ===================================================================== *)
(** ** Predicates of the statements *)
(* ===================================================================== *)

(** No task of the list has exactly this description. *)
Definition no_task_named (d : string) (l : list Task) : bool :=
  forallb (fun t => negb (String.eqb (description t) d)) l.

Definition filter_kinds : list string := ["priority"; "due_date"; "tag"; "keyword"].

(** A filter kind [list_tasks] has a branch for. *)
Definition recognised (filter_by : option string) : bool :=
  match filter_by with
  | Some k => existsb (String.eqb k) filter_kinds
  | None => false
  end.

(** Every task of the store is as the constructor leaves one. *)
Definition store_ok (σ : state) : bool := forallb Task_ok (tasks σ).

(** A task carries a tag whose lower-cased text is the lower-cased [v]. *)
Definition has_tag (v : string) (t : Task) : bool :=
  existsb (fun tag => String.eqb (lower v) (lower tag)) (tags t).

(** Every task is due in a year of four digits. *)
Definition years_ok (l : list Task) : bool :=
  forallb (fun t => 1000 <=? year (due_date t)) l.

(** The store of three tasks A (High), B (Low), C (High). *)
Definition tA := mkTask "A" (mkdate 2025 1 5) "High" false [].
Definition tB := mkTask "B" (mkdate 2025 1 6) "Low" false ["personal"].
Definition tC := mkTask "C" (mkdate 2025 1 7) "High" true [].

(* ===================================================================== *)
(** ** Definitions used by the proofs *)
(* ===================================================================== *)

(** The number written by the digits at the start of a text, and the text
    after them. *)
Fixpoint read_digits (acc : Z) (s : string) : Z * string :=
  match s with
  | String c t => if is_digit c then read_digits (10 * acc + (code c - 48)) t else (acc, s)
  | EmptyString => (acc, EmptyString)
  end.

(** A reader for digits, hyphen, digits, hyphen, digits. *)
Definition read_date (s : string) : option date :=
  let (y, s1) := read_digits 0 s in
  match s1 with
  | String "-" s2 =>
      let (m, s3) := read_digits 0 s2 in
      match s3 with
      | String "-" s4 => Some (mkdate y m (fst (read_digits 0 s4)))
      | _ => None
      end
  | _ => None
  end.

(** The text is empty or begins with a character that is no digit. *)
Definition is_digit_head (s : string) : bool :=
  match s with
  | String c _ => is_digit c
  | EmptyString => false
  end.

(** The 256 characters. *)
Definition all_ascii : list ascii := List.map ascii_of_nat (List.seq 0 256).

(** The part of the format after the year: [-%m-%d]. *)
Definition match_md (s1 : string) : option (string * string * string) :=
  rmatch (Lit "-") s1 (fun _ s2 =>
  rmatch re_m s2 (fun m s3 =>
  rmatch (Lit "-") s3 (fun _ s4 =>
  rmatch re_d s4 (fun d rest =>
  Some (m, d, rest))))).

(** Ranges of integers run over by computation. *)
Definition Zrange (lo : Z) (n : nat) : list Z :=
  List.map (fun i => lo + Z.of_nat i) (List.seq 0 n).

(** Month [m] and day [d], printed on two digits each, are matched and read
    back. *)
Definition md_roundtrip (m d : Z) : bool :=
  bool_decide (match_md ("-" +:+ fmt2 m +:+ "-" +:+ fmt2 d) = Some (fmt2 m, fmt2 d, EmptyString))
  && (int (fmt2 m) =? m) && (int (fmt2 d) =? d).

(** A text with a comma in it. *)
Fixpoint has_comma (s : string) : bool :=
  match s with
  | EmptyString => false
  | String c t => Ascii.eqb c "," || has_comma t
  end.

(** A text that does not begin with white space. *)
Definition starts_clean (s : string) : Prop :=
  match s with
  | EmptyString => True
  | String c _ => is_space c = false
  end.

(** From [w] to [w']: the store is still valid, the files are the same and
    no line was put back on the input. *)
Definition good (w w' : world) : Prop :=
  store_ok (store w') = true
  /\ files (store w') = files (store w)
  /\ (length (stdin w') <= length (stdin w))%nat.

(** A step that, from a valid store, keeps [good]; a value it returns
    satisfies [Q], an exception it raises is one the menu handles or a
    [ValueError]. *)
Definition spec {A} (m : IO A) (Q : A -> Prop) : Prop :=
  forall w, store_ok (store w) = true ->
    match m w with
    | (Done a, w') => good w w' /\ Q a
    | (Failed e _, w') => good w w' /\ (menu_handles e = true \/ e = ValueError)
    | (EndOfInput, w') => good w w'
    end.

(** The files after the store [σ] was saved to tasks.json over [fs]. *)
Definition saved (fs : gmap string file) (σ : state) : gmap string file :=
  <["tasks.json" := JsonDoc (List.map to_dict (tasks σ))]> fs.

(** What a turn of the loop, or the whole loop, leaves behind from the world
    [w]: after the exit the tasks are valid and saved over the files of [w];
    in every other case the files are those of [w]; an exception that ends
    the program is a [ValueError]. *)
Definition ends_well (w : world) (r : ending * world) : Prop :=
  match r with
  | (Exited, w') =>
      store_ok (store w') = true /\ files (store w') = saved (files (store w)) (store w')
  | (Crashed e, w') => e = ValueError /\ files (store w') = files (store w)
  | (InputClosed, w') => files (store w') = files (store w)
  | (OutOfFuel, _) => False
  end.

(** A step that never changes the store. *)
Definition reads_only {A} (m : IO A) : Prop :=
  forall w, store (snd (m w)) = store w.

(** A step that always returns a value. *)
Definition completes {A} (m : IO A) : Prop :=
  forall w, exists a, fst (m w) = Done a.

(** A step that returns a value or leaves the store as it was. *)
Definition all_or_nothing {A} (m : IO A) : Prop :=
  forall w, (exists a, fst (m w) = Done a) \/ store (snd (m w)) = store w.

(** A hypothesis that equates different constructors, possibly under a
    conjunction or an existential. *)
Ltac contradictory H :=
  lazymatch type of H with
  | _ /\ _ => let H1 := fresh in let H2 := fresh in
              destruct H as [H1 H2]; first [contradictory H1 | contradictory H2]
  | ex _ => let x := fresh in let H1 := fresh in
            destruct H as [x H1]; contradictory H1
  | _ = _ => discriminate H
  end.

(* ===================================================================== *)
(** ** Characters and case *)
(* ===================================================================== *)

Lemma all_ascii_complete (c : ascii) : In c all_ascii.
Proof.
  rewrite <- (ascii_nat_embedding c). apply in_map, in_seq.
  pose proof (nat_ascii_bounded c). lia.
Qed.

(** A property of characters decided by running over the 256 of them. *)
Lemma forall_ascii (p : ascii -> bool) :
  forallb p all_ascii = true -> forall c, p c = true.
Proof.
  intros H c. rewrite forallb_forall in H. apply H, all_ascii_complete.
Qed.

Lemma forall_ascii2 (p : ascii -> ascii -> bool) :
  forallb (fun x => forallb (p x) all_ascii) all_ascii = true ->
  forall x y, p x y = true.
Proof.
  intros H x y.
  apply (forall_ascii (p x)), (forall_ascii (fun x => forallb (p x) all_ascii) H).
Qed.

Lemma lower_upper_char c : lower_char (upper_char c) = lower_char c.
Proof.
  apply Ascii.eqb_eq.
  apply (forall_ascii (fun c => Ascii.eqb (lower_char (upper_char c)) (lower_char c))).
  vm_compute. reflexivity.
Qed.

Lemma upper_lower_char c : upper_char (lower_char c) = upper_char c.
Proof.
  apply Ascii.eqb_eq.
  apply (forall_ascii (fun c => Ascii.eqb (upper_char (lower_char c)) (upper_char c))).
  vm_compute. reflexivity.
Qed.

Lemma lower_lower_char c : lower_char (lower_char c) = lower_char c.
Proof.
  apply Ascii.eqb_eq.
  apply (forall_ascii (fun c => Ascii.eqb (lower_char (lower_char c)) (lower_char c))).
  vm_compute. reflexivity.
Qed.

(** Two characters equal up to case are those with the same lower case. *)
Lemma nocase_char x y :
  (Ascii.eqb x y || Ascii.eqb (lower_char x) y || Ascii.eqb x (lower_char y))
  = Ascii.eqb (lower_char x) (lower_char y).
Proof.
  apply eqb_prop.
  apply (forall_ascii2 (fun x y =>
           Bool.eqb (Ascii.eqb x y || Ascii.eqb (lower_char x) y || Ascii.eqb x (lower_char y))
                    (Ascii.eqb (lower_char x) (lower_char y)))).
  vm_compute. reflexivity.
Qed.

Lemma eq_nocase_lower a b : eq_nocase a b = String.eqb (lower a) (lower b).
Proof.
  revert b. induction a as [|x a IH]; intros [|y b]; simpl; try reflexivity.
  rewrite nocase_char, IH. reflexivity.
Qed.

Lemma eq_nocase_iff a b : eq_nocase a b = true <-> lower a = lower b.
Proof. rewrite eq_nocase_lower. apply String.eqb_eq. Qed.

Lemma lower_idem s : lower (lower s) = lower s.
Proof. induction s as [|c s IH]; simpl; [|rewrite lower_lower_char, IH]; reflexivity. Qed.

Lemma lower_capitalize s : lower (capitalize s) = lower s.
Proof.
  destruct s as [|c s]; simpl; [reflexivity|].
  rewrite lower_upper_char, lower_idem. reflexivity.
Qed.

Lemma capitalize_lower s : capitalize (lower s) = capitalize s.
Proof.
  destruct s as [|c s]; simpl; [reflexivity|].
  rewrite upper_lower_char, lower_idem. reflexivity.
Qed.

(** The constructor's test on the capitalised text is the test "High, Medium
    or Low up to case". *)
Lemma priority_text_ok_iff p : priority_text_ok p = true <-> capitalize p ∈ priorities.
Proof.
  unfold priority_text_ok. rewrite existsb_exists. split.
  - intros (q & Hq & E). apply eq_nocase_iff in E.
    rewrite <- capitalize_lower, E, capitalize_lower.
    simpl in Hq. destruct Hq as [<-|[<-|[<-|[]]]]; vm_compute; set_solver.
  - intros H. exists (capitalize p). split; [apply list_elem_of_In, H|].
    apply eq_nocase_iff. symmetry. apply lower_capitalize.
Qed.

Lemma priority_text_ok_decide p :
  bool_decide (capitalize p ∈ priorities) = priority_text_ok p.
Proof.
  destruct (priority_text_ok p) eqn:E.
  - apply bool_decide_eq_true, priority_text_ok_iff, E.
  - apply bool_decide_eq_false. rewrite <- priority_text_ok_iff. congruence.
Qed.

Lemma capitalize_priority q : q ∈ priorities -> capitalize q = q.
Proof.
  unfold priorities. set_unfold. intros [->|[->|[->|[]]]]; reflexivity.
Qed.

(* ===================================================================== *)
(** ** Parsing and printing dates *)
(* ===================================================================== *)

Section Matcher.
Context {A B : Type}.

(** The matcher only looks at what its continuation returns. *)
Lemma rmatch_ext {C} (r : regex) : forall s (k k' : string -> string -> option C),
  (forall a t, k a t = k' a t) -> rmatch r s k = rmatch r s k'.
Proof.
  induction r as [c|lo hi| |r1 IH1 r2 IH2|r1 IH1 r2 IH2]; intros s k k' E; simpl.
  1-3: destruct s as [|x t]; simpl; [reflexivity|]; rewrite E; reflexivity.
  - apply IH1. intros a t. apply IH2. intros b u. apply E.
  - rewrite (IH1 s k k' E), (IH2 s k k' E). reflexivity.
Qed.

(** A function applied to the result of the whole match can be applied at
    the end of the continuation instead. *)
Lemma rmatch_fmap (f : A -> B) (r : regex) : forall s (k : string -> string -> option A),
  rmatch r s (fun a t => f <$> k a t) = f <$> rmatch r s k.
Proof.
  induction r as [c|lo hi| |r1 IH1 r2 IH2|r1 IH1 r2 IH2]; intros s k; simpl.
  1-3: destruct s as [|x t]; simpl; [reflexivity|];
       match goal with |- context [if ?b then _ else _] => destruct b end; reflexivity.
  - rewrite <- IH1. apply rmatch_ext. intros a t. apply IH2.
  - rewrite IH1, IH2. destruct (rmatch r1 s k); reflexivity.
Qed.
End Matcher.

Lemma format_match_md s :
  format_match s =
  rmatch re_Y s (fun Y s1 => (fun '(m, d, rest) => (Y, m, d, rest)) <$> match_md s1).
Proof.
  unfold format_match, match_md. apply rmatch_ext. intros Y s1.
  rewrite <- rmatch_fmap. apply rmatch_ext. intros _ s2.
  rewrite <- rmatch_fmap. apply rmatch_ext. intros m s3.
  rewrite <- rmatch_fmap. apply rmatch_ext. intros _ s4.
  rewrite <- rmatch_fmap. reflexivity.
Qed.

Lemma code_digit_char n : code (digit_char n) = 48 + n mod 10.
Proof.
  unfold code, digit_char, chr.
  pose proof (Z.mod_pos_bound n 10 ltac:(lia)).
  rewrite nat_ascii_embedding by lia. lia.
Qed.

Lemma is_digit_digit_char n : is_digit (digit_char n) = true.
Proof.
  unfold is_digit. rewrite code_digit_char.
  pose proof (Z.mod_pos_bound n 10 ltac:(lia)). lia.
Qed.

Lemma digit_char_not_blank n : Ascii.eqb (digit_char n) " " = false.
Proof.
  apply Ascii.eqb_neq. intros E. apply (f_equal code) in E.
  rewrite code_digit_char in E. change (code " ") with 32 in E.
  pose proof (Z.mod_pos_bound n 10 ltac:(lia)). lia.
Qed.

Lemma rmatch_re_Y {A} a b c e t (k : string -> string -> option A) :
  rmatch re_Y (String (digit_char a) (String (digit_char b)
              (String (digit_char c) (String (digit_char e) t)))) k
  = k (String (digit_char a) (String (digit_char b)
      (String (digit_char c) (String (digit_char e) EmptyString)))) t.
Proof.
  unfold re_Y. simpl. rewrite !is_digit_digit_char. reflexivity.
Qed.

Lemma int_fmt4 y : 0 <= y <= 9999 -> int (fmt4 y) = y.
Proof.
  intros Hy. unfold int, fmt4, fmt2. simpl lstrip.
  rewrite digit_char_not_blank. simpl. rewrite !code_digit_char.
  replace (y / 1000) with (y / 10 / 10 / 10) by (rewrite !Z.div_div by lia; reflexivity).
  replace (y / 100) with (y / 10 / 10) by (rewrite !Z.div_div by lia; reflexivity).
  Z.div_mod_to_equations. lia.
Qed.

Lemma forall_Zrange (p : Z -> bool) lo n :
  forallb p (Zrange lo n) = true -> forall z, lo <= z < lo + Z.of_nat n -> p z = true.
Proof.
  intros H z Hz. rewrite forallb_forall in H. apply H.
  unfold Zrange. replace z with (lo + Z.of_nat (Z.to_nat (z - lo))) by lia.
  apply (in_map (fun i => lo + Z.of_nat i)), in_seq. lia.
Qed.

Lemma md_roundtrip_ok m d : 1 <= m <= 12 -> 1 <= d <= 31 -> md_roundtrip m d = true.
Proof.
  intros Hm Hd.
  apply (forall_Zrange (md_roundtrip m) 1 31); [|lia].
  apply (forall_Zrange (fun m => forallb (md_roundtrip m) (Zrange 1 31)) 1 12); [|lia].
  vm_compute. reflexivity.
Qed.

Lemma days_in_month_le y m : days_in_month y m <= 31.
Proof.
  unfold days_in_month. destruct ((m =? 2) && is_leap y); [lia|].
  destruct m as [|p|p]; try lia.
  do 4 (try destruct p as [p|p|]); lia.
Qed.

Lemma strptime_raises s : (exists d, strptime s = Ok d) \/ strptime s = Raise ValueError.
Proof.
  unfold strptime. destruct (format_match s) as [[[[Y m] d] [|c rest]]|]; eauto.
  destruct (check_date_fields _ _ _); eauto.
Qed.

Lemma strptime_valid s d : strptime s = Ok d -> datetime.valid d.
Proof.
  unfold strptime. destruct (format_match s) as [[[[Y m] d'] [|c rest]]|]; try discriminate.
  destruct (check_date_fields _ _ _) eqn:E; [|discriminate].
  intros [= <-]. exact E.
Qed.

(** Parsing the four-digit form of a calendar date gives the date back. *)
Lemma strptime_isoformat d : datetime.valid d -> strptime (isoformat d) = Ok d.
Proof.
  destruct d as [y m dd]. unfold datetime.valid. simpl. intros V.
  assert (R : 1 <= y <= 9999 /\ 1 <= m <= 12 /\ 1 <= dd <= 31).
  { pose proof (days_in_month_le y m). unfold check_date_fields, MINYEAR, MAXYEAR in V. lia. }
  destruct R as (Hy & Hm & Hd).
  pose proof (md_roundtrip_ok m dd Hm Hd) as MD. unfold md_roundtrip in MD.
  apply andb_prop in MD as [MD Ed]. apply andb_prop in MD as [MD Em].
  apply bool_decide_eq_true in MD. apply Z.eqb_eq in Em, Ed.
  unfold strptime, isoformat. rewrite format_match_md. cbn [year month day].
  change (fmt4 y +:+ "-" +:+ fmt2 m +:+ "-" +:+ fmt2 dd)
    with (String (digit_char (y / 1000)) (String (digit_char (y / 100))
         (String (digit_char (y / 10)) (String (digit_char y)
         ("-" +:+ fmt2 m +:+ "-" +:+ fmt2 dd))))).
  rewrite rmatch_re_Y, MD. cbn [fmap option_fmap option_map].
  change (String (digit_char (y / 1000)) (String (digit_char (y / 100))
         (String (digit_char (y / 10)) (String (digit_char y) EmptyString))))
    with (fmt4 y).
  rewrite int_fmt4, Em, Ed, V by lia. reflexivity.
Qed.

Lemma strftime_isoformat d : 1000 <= year d -> strftime d = isoformat d.
Proof.
  intros H. unfold strftime, isoformat, fmtY.
  destruct (Z.ltb_spec (year d) 10); [lia|].
  destruct (Z.ltb_spec (year d) 100); [lia|].
  destruct (Z.ltb_spec (year d) 1000); [lia|]. reflexivity.
Qed.

(** Parsing what [strftime] printed gives the date back from the year 1000
    on. *)
Lemma strptime_strftime d :
  datetime.valid d -> 1000 <= year d -> strptime (strftime d) = Ok d.
Proof. intros V H. rewrite (strftime_isoformat d H). apply strptime_isoformat, V. Qed.

Lemma is_digit_hyphen : is_digit "-" = false.
Proof. reflexivity. Qed.

(** Before the year 1000 [strftime] prints fewer than four digits, which
    [%Y] does not match. *)
Lemma strptime_strftime_short d :
  year d < 1000 -> strptime (strftime d) = Raise ValueError.
Proof.
  intros H. unfold strptime, strftime, format_match, fmtY, fmt2, re_Y.
  destruct (Z.ltb_spec (year d) 10); [|destruct (Z.ltb_spec (year d) 100);
    [|destruct (Z.ltb_spec (year d) 1000); [|lia]]];
    cbv [String.append rmatch one]; rewrite ?is_digit_digit_char, is_digit_hyphen;
    reflexivity.
Qed.

Lemma read_digits_digit n acc t :
  read_digits acc (String (digit_char n) t) = read_digits (10 * acc + n mod 10) t.
Proof.
  cbn [read_digits]. rewrite is_digit_digit_char, code_digit_char. f_equal. lia.
Qed.

Lemma read_digits_fmt2 n t :
  0 <= n <= 99 -> is_digit_head t = false ->
  read_digits 0 (fmt2 n +:+ t) = (n, t).
Proof.
  intros H T. unfold fmt2. cbv [String.append]. rewrite !read_digits_digit.
  replace (10 * (10 * 0 + (n / 10) mod 10) + n mod 10) with n by (Z.div_mod_to_equations; lia).
  destruct t as [|c t]; [reflexivity|]. cbn in *. rewrite T. reflexivity.
Qed.

Lemma read_digits_fmtY n t :
  0 <= n <= 9999 -> is_digit_head t = false ->
  read_digits 0 (fmtY n +:+ t) = (n, t).
Proof.
  intros H T. unfold fmtY.
  assert (E : forall acc, read_digits acc t = (acc, t)).
  { intros acc. destruct t as [|c t]; [reflexivity|]. cbn in *. rewrite T. reflexivity. }
  destruct (Z.ltb_spec n 10); [|destruct (Z.ltb_spec n 100); [|destruct (Z.ltb_spec n 1000)]];
    unfold fmt4, fmt2; cbv [String.append]; rewrite !read_digits_digit, E; f_equal.
  - Z.div_mod_to_equations; lia.
  - Z.div_mod_to_equations; lia.
  - replace (n / 100) with (n / 10 / 10) by (rewrite !Z.div_div by lia; reflexivity).
    Z.div_mod_to_equations; lia.
  - replace (n / 1000) with (n / 10 / 10 / 10) by (rewrite !Z.div_div by lia; reflexivity).
    replace (n / 100) with (n / 10 / 10) by (rewrite !Z.div_div by lia; reflexivity).
    Z.div_mod_to_equations; lia.
Qed.

(** What [strftime] prints for a calendar date determines the date. *)
Lemma read_date_strftime d : datetime.valid d -> read_date (strftime d) = Some d.
Proof.
  destruct d as [y m dd]. unfold datetime.valid. cbn [year month day]. intros V.
  assert (R : 1 <= y <= 9999 /\ 1 <= m <= 12 /\ 1 <= dd <= 31).
  { pose proof (days_in_month_le y m). unfold check_date_fields, MINYEAR, MAXYEAR in V. lia. }
  destruct R as (Hy & Hm & Hd).
  unfold read_date, strftime. cbn [year month day].
  rewrite read_digits_fmtY by (lia || reflexivity).
  change ("-" +:+ fmt2 m +:+ "-" +:+ fmt2 dd) with (String "-" (fmt2 m +:+ "-" +:+ fmt2 dd)).
  cbv iota. rewrite read_digits_fmt2 by (lia || reflexivity).
  change ("-" +:+ fmt2 dd) with (String "-" (fmt2 dd +:+ EmptyString)).
  cbv iota. rewrite read_digits_fmt2 by (lia || reflexivity). reflexivity.
Qed.

(* ===================================================================== *)
(** ** Task: construction and records *)
(* ===================================================================== *)

Lemma matches_format_true s : matches_format s = true <-> exists d, strptime s = Ok d.
Proof.
  unfold matches_format. destruct (strptime s) as [d|e]; split; eauto; try discriminate.
  intros [d [=]].
Qed.

Lemma matches_format_false s : matches_format s = false <-> strptime s = Raise ValueError.
Proof.
  unfold matches_format.
  destruct (strptime_raises s) as [[d ->]| ->]; split; congruence.
Qed.

(** Every calendar date written as YYYY-MM-DD parses. *)
Lemma calendar_date_matches_format d :
  datetime.valid d -> matches_format (isoformat d) = true.
Proof.
  intros V. apply matches_format_true. exists d. apply strptime_isoformat, V.
Qed.

(** The three outcomes of the constructor, by the two validations. *)
Lemma Task_init_cases desc s p tgs c :
  Task_init desc s p tgs c =
  match strptime s with
  | Raise _ => Raise InvalidDateError
  | Ok d =>
      if priority_text_ok p
      then Ok (mkTask desc d (capitalize p) c (tags_or_empty tgs))
      else Raise InvalidPriorityError
  end.
Proof.
  unfold Task_init. destruct (strptime_raises s) as [[d ->]| ->]; [|reflexivity].
  cbn [mbind result_bind]. rewrite priority_text_ok_decide.
  destruct (priority_text_ok p); reflexivity.
Qed.

Lemma Task_init_Task_ok desc s p tgs c t :
  Task_init desc s p tgs c = Ok t -> Task_ok t = true.
Proof.
  rewrite Task_init_cases. destruct (strptime s) as [d|e] eqn:E; [|discriminate].
  destruct (priority_text_ok p) eqn:P; [|discriminate]. intros [= <-].
  unfold Task_ok. cbn [due_date priority].
  apply andb_true_intro. split.
  - apply (strptime_valid s d E).
  - rewrite priority_text_ok_decide. exact P.
Qed.

Lemma tags_or_empty_Some l : tags_or_empty (Some l) = l.
Proof. destruct l; reflexivity. Qed.

(** Reading back the record of a valid Task: the Task itself when it is due
    in the year 1000 or later, [InvalidDateError] when it is due before,
    because the year is then written on fewer than four digits. *)
Lemma from_dict_to_dict_cases t :
  Task_ok t = true ->
  from_dict (to_dict t)
  = if 1000 <=? year (due_date t) then Ok t else Raise InvalidDateError.
Proof.
  unfold Task_ok. intros H. apply andb_prop in H as [V P].
  apply bool_decide_eq_true in P.
  unfold from_dict, to_dict. cbn [getitem get default k_description k_due_date
    k_priority k_completed k_tags mbind result_bind].
  rewrite Task_init_cases. destruct (Z.leb_spec 1000 (year (due_date t))) as [Y|Y].
  - rewrite (strptime_strftime (due_date t) V Y).
    rewrite (capitalize_priority _ P), tags_or_empty_Some.
    replace (priority_text_ok (priority t)) with true.
    + destruct t; reflexivity.
    + symmetry. apply priority_text_ok_iff. rewrite (capitalize_priority _ P). exact P.
  - rewrite (strptime_strftime_short (due_date t) Y). reflexivity.
Qed.

Lemma from_dict_to_dict t :
  Task_ok t = true -> 1000 <= year (due_date t) -> from_dict (to_dict t) = Ok t.
Proof.
  intros K Y. rewrite (from_dict_to_dict_cases t K).
  destruct (Z.leb_spec 1000 (year (due_date t))); [reflexivity|lia].
Qed.

(** C1, at the failing input. The Task built from the date text 0999-01-05
    is written by [to_dict] with the due date 999-01-05, the year on three
    digits, and [from_dict] refuses that record with [InvalidDateError]
    instead of giving the Task back. *)
Theorem to_dict_from_dict_year_0999 :
  let t := mkTask "Pay rent" (mkdate 999 1 5) "High" false [] in
  matches_format "0999-01-05" = true
  /\ priority_text_ok "High" = true
  /\ Task_init "Pay rent" "0999-01-05" "High" (Some []) false = Ok t
  /\ k_due_date (to_dict t) = Some "999-01-05"
  /\ from_dict (to_dict t) = Raise InvalidDateError.
Proof. repeat split. Qed.

(* ===================================================================== *)
(** ** ToDoList: persistence *)
(* ===================================================================== *)

(** Reading back the records of valid Tasks: the Tasks when all are due in
    the year 1000 or later, [InvalidDateError] otherwise. *)
Lemma from_dicts_to_dicts_cases l :
  forallb Task_ok l = true ->
  from_dicts (List.map to_dict l)
  = if years_ok l then Ok l else Raise InvalidDateError.
Proof.
  induction l as [|t l IH]; [reflexivity|].
  cbn [forallb List.map from_dicts years_ok]. intros H. apply andb_prop in H as [Ht Hl].
  rewrite (from_dict_to_dict_cases t Ht).
  destruct (1000 <=? year (due_date t)); [|reflexivity].
  cbn [mbind result_bind andb]. rewrite (IH Hl). fold (years_ok l).
  destruct (years_ok l); reflexivity.
Qed.

Lemma from_dicts_to_dicts l :
  forallb Task_ok l = true -> years_ok l = true ->
  from_dicts (List.map to_dict l) = Ok l.
Proof. intros K Y. rewrite (from_dicts_to_dicts_cases l K), Y. reflexivity. Qed.

(** Saving valid Tasks and loading them into a fresh store. *)
Lemma save_then_load (l : list Task) (fs : gmap string file) (path : string) :
  forallb Task_ok l = true ->
  exists fs', save_to_file path (mkstate l fs) = (Ok tt, mkstate l fs')
              /\ load_from_file path (ToDoList_init fs')
                 = if years_ok l then (Ok tt, mkstate l fs')
                   else (Raise InvalidDateError, ToDoList_init fs').
Proof.
  intros H. exists (<[path := JsonDoc (List.map to_dict l)]> fs).
  split; [reflexivity|].
  unfold load_from_file, try_catch, read_json, ToDoList_init.
  unfold mbind, M_bind, lift. cbn [files].
  rewrite lookup_insert_eq, (from_dicts_to_dicts_cases l H).
  destruct (years_ok l); reflexivity.
Qed.

(** C2, at the failing input. A store holding one valid Task due on
    0999-01-05 is saved, and the load into a fresh store raises
    [InvalidDateError] and leaves that store empty: the file holds the due
    date 999-01-05. *)
Theorem save_load_year_0999 (fs : gmap string file) :
  let l := [mkTask "Pay rent" (mkdate 999 1 5) "High" false []] in
  forallb Task_ok l = true
  /\ exists fs',
       save_to_file "tasks.json" (mkstate l fs) = (Ok tt, mkstate l fs')
       /\ fs' !! "tasks.json"
          = Some (JsonDoc [mkDict (Some "Pay rent") (Some "999-01-05") (Some "High")
                                  (Some false) (Some [])])
       /\ load_from_file "tasks.json" (ToDoList_init fs')
          = (Raise InvalidDateError, ToDoList_init fs').
Proof.
  split; [reflexivity|].
  exists (<["tasks.json" := JsonDoc [mkDict (Some "Pay rent") (Some "999-01-05") (Some "High")
                                        (Some false) (Some [])]]> fs).
  split; [reflexivity|]. split; [apply lookup_insert_eq|].
  unfold load_from_file, try_catch, read_json, ToDoList_init.
  unfold mbind, M_bind, lift. cbn [files]. rewrite lookup_insert_eq. reflexivity.
Qed.

(* ===================================================================== *)
(** ** Task: validation failures *)
(* ===================================================================== *)

(** C3, as stated, fails: with a date text that does not parse, an invalid
    priority is never looked at and the constructor raises
    [InvalidDateError]. *)
Lemma invalid_priority_with_bad_date :
  priority_text_ok "urgent" = false
  /\ Task_init "x" "not-a-date" "urgent" None false = Raise InvalidDateError
  /\ Task_init "x" "not-a-date" "urgent" None false <> Raise InvalidPriorityError.
Proof. repeat split. discriminate. Qed.

(** C3, amended. For every priority text that is not High, Medium or Low up
    to case, and every date text that parses, the constructor raises
    [InvalidPriorityError], whatever the description, tags and completed
    flag. *)
Theorem invalid_priority_raises desc date_text prio tgs c :
  matches_format date_text = true ->
  priority_text_ok prio = false ->
  Task_init desc date_text prio tgs c = Raise InvalidPriorityError.
Proof.
  intros D P. apply matches_format_true in D as [d D].
  rewrite Task_init_cases, D, P. reflexivity.
Qed.

Lemma invalid_priority_raises_witness :
  Task_init "x" "2024-01-01" "urgent" (Some ["a"]) false = Raise InvalidPriorityError.
Proof.
  apply (invalid_priority_raises "x" "2024-01-01" "urgent" (Some ["a"]) false); reflexivity.
Defined.

(** C4. For every date text that does not parse under the fixed format, the
    constructor raises [InvalidDateError], whatever the other arguments. *)
Theorem invalid_date_raises desc date_text prio tgs c :
  matches_format date_text = false ->
  Task_init desc date_text prio tgs c = Raise InvalidDateError.
Proof.
  intros D. apply matches_format_false in D.
  rewrite Task_init_cases, D. reflexivity.
Qed.

Lemma invalid_date_raises_witness :
  Task_init "x" "2024-13-01" "High" None false = Raise InvalidDateError
  /\ Task_init "x" "not-a-date" "High" None false = Raise InvalidDateError.
Proof.
  split.
  - apply (invalid_date_raises "x" "2024-13-01" "High" None false). reflexivity.
  - apply (invalid_date_raises "x" "not-a-date" "High" None false). reflexivity.
Defined.

(** C5, as stated, fails: with a date text that parses and an invalid
    priority the constructor raises [InvalidPriorityError], which is no
    [ValueError] and passes the handler unchanged. *)
Lemma priority_failure_not_conflated :
  matches_format "2024-01-01" = true
  /\ priority_text_ok "urgent" = false
  /\ isinstance InvalidPriorityError ValueError = false
  /\ Task_init "x" "2024-01-01" "urgent" None false = Raise InvalidPriorityError
  /\ Task_init "x" "2024-01-01" "urgent" None false <> Raise InvalidDateError.
Proof. repeat split. discriminate. Qed.

(** C5, amended. The constructor raises [InvalidDateError] exactly when the
    date text does not parse, and [InvalidPriorityError] exactly when the
    date text parses and the priority text is not High, Medium or Low up to
    case; in every other case it returns a Task. *)
Theorem Task_init_failures desc date_text prio tgs c :
  (Task_init desc date_text prio tgs c = Raise InvalidDateError
     <-> matches_format date_text = false)
  /\ (Task_init desc date_text prio tgs c = Raise InvalidPriorityError
     <-> matches_format date_text = true /\ priority_text_ok prio = false)
  /\ ((exists t, Task_init desc date_text prio tgs c = Ok t)
     <-> matches_format date_text = true /\ priority_text_ok prio = true).
Proof.
  rewrite Task_init_cases. unfold matches_format.
  destruct (strptime date_text) as [d|e]; destruct (priority_text_ok prio);
    (split; [|split]); split; intros H; try solve [contradictory H]; eauto.
Qed.

(** C10. The description is not validated: with a date text that parses and
    a priority text that is High, Medium or Low up to case, the constructor
    given the empty description returns a Task whose description is empty. *)
Theorem empty_description_accepted date_text prio tgs c :
  matches_format date_text = true ->
  priority_text_ok prio = true ->
  exists t, Task_init EmptyString date_text prio tgs c = Ok t
            /\ description t = EmptyString.
Proof.
  intros D P. apply matches_format_true in D as [d D].
  rewrite Task_init_cases, D, P. eexists. split; reflexivity.
Qed.

Lemma empty_description_accepted_witness :
  exists t, Task_init EmptyString "2025-01-06" "low" None false = Ok t
            /\ description t = EmptyString.
Proof.
  apply (empty_description_accepted "2025-01-06" "low" None false); reflexivity.
Defined.

(* ===================================================================== *)
(** ** ToDoList: lookup by description *)
(* ===================================================================== *)

(** A loop whose body never returns runs to the end and changes nothing. *)
Lemma for_each_falls_through {A} (body : nat -> Task -> M (option A)) σ :
  forall l i,
    (forall j t, In t l -> body j t σ = (Ok None, σ)) ->
    for_each i l body σ = (Ok None, σ).
Proof.
  induction l as [|t l IH]; intros i H; [reflexivity|].
  cbn [for_each]. unfold mbind, M_bind.
  rewrite (H i t (or_introl eq_refl)).
  apply IH. intros j u Hu. apply H. right. exact Hu.
Qed.

(** C6. For every store and every description that no task of the store has
    (so for the empty store and any description), [remove_task] and
    [mark_completed] both raise [TaskNotFoundError] and leave the store as it
    was. *)
Theorem not_found_raises (σ : state) (d : string) :
  no_task_named d (tasks σ) = true ->
  remove_task d σ = (Raise TaskNotFoundError, σ)
  /\ mark_completed d σ = (Raise TaskNotFoundError, σ).
Proof.
  intros H. unfold no_task_named in H. rewrite forallb_forall in H.
  split.
  - unfold remove_task, mbind, M_bind, get_tasks at 1.
    rewrite for_each_falls_through; [reflexivity|].
    intros j t Ht. apply H, negb_true_iff in Ht. rewrite Ht. reflexivity.
  - unfold mark_completed, mbind, M_bind, get_tasks at 1.
    rewrite for_each_falls_through; [reflexivity|].
    intros j t Ht. apply H, negb_true_iff in Ht. rewrite Ht. reflexivity.
Qed.

Lemma not_found_raises_witness :
  (remove_task "X" (ToDoList_init ∅) = (Raise TaskNotFoundError, ToDoList_init ∅)
   /\ mark_completed "X" (ToDoList_init ∅) = (Raise TaskNotFoundError, ToDoList_init ∅))
  /\ (remove_task "pay rent"
        (mkstate [mkTask "Pay rent" (mkdate 2025 1 5) "High" false []] ∅)
      = (Raise TaskNotFoundError,
         mkstate [mkTask "Pay rent" (mkdate 2025 1 5) "High" false []] ∅)
      /\ mark_completed "pay rent"
           (mkstate [mkTask "Pay rent" (mkdate 2025 1 5) "High" false []] ∅)
         = (Raise TaskNotFoundError,
            mkstate [mkTask "Pay rent" (mkdate 2025 1 5) "High" false []] ∅)).
Proof.
  split.
  - apply (not_found_raises (ToDoList_init ∅) "X"). reflexivity.
  - apply (not_found_raises
             (mkstate [mkTask "Pay rent" (mkdate 2025 1 5) "High" false []] ∅)
             "pay rent").
    reflexivity.
Defined.

(* ===================================================================== *)
(** ** ToDoList: listing and filters *)
(* ===================================================================== *)

(** A comprehension whose condition never raises is a filter. *)
Lemma comprehension_filter (f : Task -> bool) (cond : Task -> result bool) l :
  (forall t, cond t = Ok (f t)) -> comprehension l cond = Ok (List.filter f l).
Proof.
  intros E. induction l as [|t l IH]; [reflexivity|].
  cbn [comprehension List.filter]. rewrite E, IH. reflexivity.
Qed.

(** C7. For every store and every text [v], listing with filter kind
    "priority" and value [v] returns the tasks of the store whose priority
    equals [v] up to the case of the letters, in store order, and leaves the
    store as it was. *)
Theorem list_by_priority (σ : state) (v : string) :
  list_tasks (Some "priority") (Some v) σ
  = (Ok (List.filter (fun t => eq_nocase (priority t) v) (tasks σ)), σ).
Proof.
  unfold list_tasks, mbind, M_bind, get_tasks, lift.
  rewrite bool_decide_eq_true_2 by reflexivity.
  rewrite (comprehension_filter (fun t => eq_nocase (priority t) v)); [reflexivity|].
  intros t. cbn. rewrite eq_nocase_lower. reflexivity.
Qed.

(** The store [A(High), B(Low), C(High)] listed by priority "high". *)
Example ABC_listed_by_high fs :
  list_tasks (Some "priority") (Some "high") (mkstate [tA; tB; tC] fs)
  = (Ok [tA; tC], mkstate [tA; tB; tC] fs).
Proof. reflexivity. Qed.

(** X17. Listing by due date with a value that parses: the tasks due on that
    date, in store order. *)
Lemma list_by_due_date (σ : state) (v : string) (d : date) :
  strptime v = Ok d ->
  list_tasks (Some "due_date") (Some v) σ
  = (Ok (List.filter (fun t => bool_decide (due_date t = d)) (tasks σ)), σ).
Proof.
  intros E. unfold list_tasks, mbind, M_bind, get_tasks, lift.
  rewrite bool_decide_eq_false_2 by discriminate.
  rewrite bool_decide_eq_true_2 by reflexivity.
  cbn [strptime_of]. rewrite E.
  rewrite (comprehension_filter (fun t => bool_decide (due_date t = d))); reflexivity.
Qed.

(** Listing by due date with a value that does not parse: the [ValueError]
    of [strptime] leaves the method as it is. *)
Lemma list_by_due_date_unparsed (σ : state) (v : string) :
  matches_format v = false ->
  list_tasks (Some "due_date") (Some v) σ = (Raise ValueError, σ).
Proof.
  intros E. apply matches_format_false in E.
  unfold list_tasks, mbind, M_bind, get_tasks, lift.
  rewrite bool_decide_eq_false_2 by discriminate.
  rewrite bool_decide_eq_true_2 by reflexivity.
  cbn [strptime_of]. rewrite E. reflexivity.
Qed.

(** C8, at the failing input. Listing by due date with the value
    "not-a-date" raises [ValueError] on every store; [ValueError] is no
    [InvalidDateError], and the menu loop's handler does not catch it. *)
Theorem list_by_due_date_raises_ValueError (σ : state) :
  list_tasks (Some "due_date") (Some "not-a-date") σ = (Raise ValueError, σ)
  /\ isinstance ValueError InvalidDateError = false
  /\ menu_handles ValueError = false
  /\ Task_init "x" "not-a-date" "High" None false = Raise InvalidDateError.
Proof.
  split; [|repeat split].
  apply list_by_due_date_unparsed. reflexivity.
Qed.

(** C9. For every store, every filter kind other than "priority",
    "due_date", "tag" and "keyword" (the absent one too) and every value (the
    absent one too), listing returns all tasks of the store in store order. *)
Theorem unrecognised_filter_lists_all (σ : state) (filter_by value : option string) :
  recognised filter_by = false ->
  list_tasks filter_by value σ = (Ok (tasks σ), σ).
Proof.
  intros H. unfold list_tasks, mbind, M_bind, get_tasks.
  assert (N : forall k, In k filter_kinds -> filter_by <> Some k).
  { intros k Hk ->. cbn [recognised] in H.
    assert (existsb (String.eqb k) filter_kinds = true); [|congruence].
    apply existsb_exists. exists k. split; [exact Hk|apply String.eqb_refl]. }
  rewrite !bool_decide_eq_false_2; [reflexivity|..];
    apply N; cbn; tauto.
Qed.

Lemma unrecognised_filter_lists_all_witness :
  list_tasks None None (mkstate [tA; tB; tC] ∅) = (Ok [tA; tB; tC], mkstate [tA; tB; tC] ∅)
  /\ list_tasks (Some "Priority") (Some "high") (mkstate [tA; tB; tC] ∅)
     = (Ok [tA; tB; tC], mkstate [tA; tB; tC] ∅).
Proof.
  split.
  - apply (unrecognised_filter_lists_all (mkstate [tA; tB; tC] ∅) None None). reflexivity.
  - apply (unrecognised_filter_lists_all (mkstate [tA; tB; tC] ∅)
             (Some "Priority") (Some "high")).
    reflexivity.
Defined.

(* ===================================================================== *)
(** ** Runs of the store *)
(* ===================================================================== *)

(** Two tasks added, listed, the first completed, then listed by priority. *)
Example pay_rent_scenario :
  let t1 := mkTask "Pay rent" (mkdate 2025 1 5) "High" false [] in
  let t2 := mkTask "Call Bob" (mkdate 2025 1 6) "Low" false ["personal"] in
  Task_init "Pay rent" "2025-01-05" "high" (Some []) false = Ok t1
  /\ Task_init "Call Bob" "2025-01-06" "low" (Some ["personal"]) false = Ok t2
  /\ fst ((add_task t1;;
           add_task t2;;
           all ← list_tasks None None;
           mark_completed "Pay rent";;
           high ← list_tasks (Some "priority") (Some "High");
           mret (all, high)) (ToDoList_init ∅))
     = Ok ([t1; t2], [set_completed t1]).
Proof. repeat split. Qed.

(** The keyword filter ignores case and looks for a substring. *)
Example keyword_filter_buy_milk :
  let t := mkTask "Buy Milk" (mkdate 2025 3 1) "Medium" false [] in
  fst (list_tasks (Some "keyword") (Some "milk") (mkstate [t] ∅)) = Ok [t]
  /\ fst (list_tasks (Some "keyword") (Some "MILK") (mkstate [t] ∅)) = Ok [t]
  /\ fst (list_tasks (Some "keyword") (Some "mild") (mkstate [t] ∅)) = Ok [].
Proof. repeat split. Qed.

(** X21. Loading a path that does not exist empties the store. *)
Lemma load_missing_file (l : list Task) (fs : gmap string file) (path : string) :
  fs !! path = None ->
  load_from_file path (mkstate l fs) = (Ok tt, mkstate [] fs).
Proof.
  intros H. unfold load_from_file, try_catch, read_json, mbind, M_bind.
  cbn [files]. rewrite H. reflexivity.
Qed.

(** Removing and completing act on the first task with the description. *)
Example first_match_wins :
  let t1 := mkTask "dup" (mkdate 2025 1 5) "High" false [] in
  let t2 := mkTask "dup" (mkdate 2025 1 6) "Low" false [] in
  tasks (snd (remove_task "dup" (mkstate [tB; t1; t2] ∅))) = [tB; t2]
  /\ tasks (snd (mark_completed "dup" (mkstate [tB; t1; t2] ∅)))
     = [tB; set_completed t1; t2].
Proof. repeat split. Qed.

(* ===================================================================== *)
(** ** Task: what the constructor and the records guarantee *)
(* ===================================================================== *)

Local Open Scope list_scope.

Lemma eq_nocase_capitalize p : eq_nocase p (capitalize p) = true.
Proof. apply eq_nocase_iff. symmetry. apply lower_capitalize. Qed.

Lemma Task_init_fields desc s p tgs c t :
  Task_init desc s p tgs c = Ok t ->
  strptime s = Ok (due_date t) /\ priority t = capitalize p
  /\ priority_text_ok p = true
  /\ description t = desc /\ completed t = c /\ tags t = tags_or_empty tgs.
Proof.
  rewrite Task_init_cases. destruct (strptime s) as [d|e]; [|discriminate].
  destruct (priority_text_ok p); [|discriminate]. intros [= <-]. repeat split.
Qed.

(** X1. A returned Task has a calendar date that is the one the date text
    denotes, a priority that is one of High, Medium, Low and equals the
    priority text up to case, and the description, completed flag and tags
    it was given (no tags for an omitted or empty list). *)
Theorem Task_init_establishes desc s p tgs c t :
  Task_init desc s p tgs c = Ok t ->
  Task_ok t = true
  /\ strptime s = Ok (due_date t)
  /\ priority t ∈ priorities
  /\ eq_nocase p (priority t) = true
  /\ description t = desc /\ completed t = c /\ tags t = tags_or_empty tgs.
Proof.
  intros H. pose proof (Task_init_Task_ok _ _ _ _ _ _ H) as K.
  destruct (Task_init_fields _ _ _ _ _ _ H) as (D & P & V & F1 & F2 & F3).
  repeat split; try assumption.
  - rewrite P. apply priority_text_ok_iff, V.
  - rewrite P. apply eq_nocase_capitalize.
Qed.

Lemma Task_init_establishes_witness :
  let t := mkTask "Call Bob" (mkdate 2025 1 6) "Low" false [] in
  Task_ok t = true
  /\ strptime "2025-1-6" = Ok (due_date t)
  /\ priority t ∈ priorities
  /\ eq_nocase "lOW" (priority t) = true
  /\ description t = "Call Bob" /\ completed t = false /\ tags t = tags_or_empty None.
Proof.
  apply (Task_init_establishes "Call Bob" "2025-1-6" "lOW" None false). reflexivity.
Defined.

(** X2. The constructor sees the date text only through the date it denotes
    and the priority text only up to case: two spellings of the same date
    and of the same priority give the same outcome. *)
Theorem Task_init_spelling desc s s' p p' tgs c :
  strptime s = strptime s' ->
  eq_nocase p p' = true ->
  Task_init desc s p tgs c = Task_init desc s' p' tgs c.
Proof.
  intros D P. apply eq_nocase_iff in P.
  assert (C : capitalize p = capitalize p').
  { rewrite <- (capitalize_lower p), P. apply capitalize_lower. }
  rewrite !Task_init_cases, D, <- !priority_text_ok_decide, C. reflexivity.
Qed.

Lemma Task_init_spelling_witness :
  Task_init "x" "2024-1-5" "HIGH" None false
  = Task_init "x" "2024-01-05" "high" None false.
Proof.
  apply (Task_init_spelling "x" "2024-1-5" "2024-01-05" "HIGH" "high" None false);
    reflexivity.
Defined.

Lemma Task_init_raises desc s p tgs c e :
  Task_init desc s p tgs c = Raise e -> e = InvalidDateError \/ e = InvalidPriorityError.
Proof.
  rewrite Task_init_cases. destruct (strptime s); [destruct (priority_text_ok p)|];
    intros [= <-]; auto.
Qed.

Lemma from_dict_raises d e :
  from_dict d = Raise e ->
  e = KeyError \/ e = InvalidDateError \/ e = InvalidPriorityError.
Proof.
  unfold from_dict. destruct d as [[a|] [b|] [c|] co tg]; cbn;
    try (intros [= <-]; left; reflexivity).
  intros H. apply Task_init_raises in H. tauto.
Qed.

(** X3. [from_dict] raises [KeyError] exactly when the record lacks one of the
    keys description, due_date, priority; a record that lacks completed or
    tags is read as not completed and without tags. *)
Theorem from_dict_keys (d : TaskDict) :
  (from_dict d = Raise KeyError
     <-> k_description d = None \/ k_due_date d = None \/ k_priority d = None)
  /\ from_dict (mkDict (k_description d) (k_due_date d) (k_priority d) None None)
     = from_dict (mkDict (k_description d) (k_due_date d) (k_priority d)
                         (Some false) (Some [])).
Proof.
  split; [|reflexivity]. split.
  - destruct d as [[a|] [b|] [c|] co tg]; cbn; auto.
    intros H. apply Task_init_raises in H. destruct H; discriminate.
  - destruct d as [[a|] [b|] [c|] co tg]; cbn; intros [H|[H|H]];
      first [discriminate H | reflexivity].
Qed.

Lemma from_dict_Task_ok d t : from_dict d = Ok t -> Task_ok t = true.
Proof.
  unfold from_dict. destruct d as [[a|] [b|] [c|] co tg]; cbn; try discriminate.
  apply Task_init_Task_ok.
Qed.

(** X4. Whatever record [from_dict] accepts, the Task it returns is valid;
    the record [to_dict] makes of it holds the capitalised priority of the
    record read, and it reads back as the same Task when the Task is due in
    the year 1000 or later, and is refused with [InvalidDateError] when it is
    due before. *)
Theorem from_dict_normal_form (d : TaskDict) (t : Task) :
  from_dict d = Ok t ->
  Task_ok t = true
  /\ from_dict (to_dict t)
     = (if 1000 <=? year (due_date t) then Ok t else Raise InvalidDateError)
  /\ exists q, k_priority d = Some q /\ k_priority (to_dict t) = Some (capitalize q).
Proof.
  intros H. pose proof (from_dict_Task_ok d t H) as K.
  split; [exact K|]. split; [apply from_dict_to_dict_cases, K|].
  revert H. unfold from_dict.
  destruct d as [[a|] [b|] [c|] co tg]; cbn; try discriminate.
  intros H. apply Task_init_fields in H as (_ & P & _).
  exists c. rewrite P. split; reflexivity.
Qed.

Lemma from_dict_normal_form_witness :
  (let d := mkDict (Some "Call Bob") (Some "2025-1-6") (Some "low") None None in
   let t := mkTask "Call Bob" (mkdate 2025 1 6) "Low" false [] in
   Task_ok t = true
   /\ from_dict (to_dict t) = Ok t
   /\ exists q, k_priority d = Some q /\ k_priority (to_dict t) = Some (capitalize q))
  /\ (let d := mkDict (Some "Old") (Some "0999-01-05") (Some "low") None None in
      let t := mkTask "Old" (mkdate 999 1 5) "Low" false [] in
      Task_ok t = true
      /\ from_dict (to_dict t) = Raise InvalidDateError
      /\ exists q, k_priority d = Some q /\ k_priority (to_dict t) = Some (capitalize q)).
Proof.
  split.
  - apply (from_dict_normal_form
             (mkDict (Some "Call Bob") (Some "2025-1-6") (Some "low") None None)).
    reflexivity.
  - apply (from_dict_normal_form
             (mkDict (Some "Old") (Some "0999-01-05") (Some "low") None None)).
    reflexivity.
Defined.

(** X5. Two valid Tasks that differ in some field have different records:
    the date text [to_dict] writes, padded or not, determines the date. *)
Theorem to_dict_injective (t1 t2 : Task) :
  Task_ok t1 = true -> Task_ok t2 = true -> t1 <> t2 -> to_dict t1 <> to_dict t2.
Proof.
  intros H1 H2 N E. apply N.
  apply andb_prop in H1 as [V1 _]. apply andb_prop in H2 as [V2 _].
  apply read_date_strftime in V1, V2.
  destruct t1 as [a1 d1 p1 c1 g1], t2 as [a2 d2 p2 c2 g2].
  unfold to_dict in E. cbn [description due_date priority completed tags] in *.
  injection E as -> D -> -> ->. rewrite D in V1. congruence.
Qed.

Lemma to_dict_injective_witness :
  to_dict (mkTask "x" (mkdate 999 1 5) "Low" false [])
  <> to_dict (mkTask "x" (mkdate 9990 1 5) "Low" false []).
Proof.
  apply (to_dict_injective (mkTask "x" (mkdate 999 1 5) "Low" false [])
                           (mkTask "x" (mkdate 9990 1 5) "Low" false []));
    [reflexivity|reflexivity|discriminate].
Defined.

(* ===================================================================== *)
(** ** ToDoList: removing and completing the first match *)
(* ===================================================================== *)

Lemma no_task_named_app d l1 l2 :
  no_task_named d (l1 ++ l2) = no_task_named d l1 && no_task_named d l2.
Proof. apply forallb_app. Qed.

(** A list with a task named [d] splits at the first such task. *)
Lemma first_named_split d l :
  no_task_named d l = false ->
  exists l1 t l2, l = l1 ++ t :: l2 /\ no_task_named d l1 = true /\ description t = d.
Proof.
  induction l as [|u l IH]; [discriminate|]. cbn [no_task_named forallb].
  destruct (String.eqb (description u) d) eqn:E.
  - intros _. exists [], u, l. apply String.eqb_eq in E. repeat split. exact E.
  - cbn [negb andb]. intros H. destruct (IH H) as (l1 & t & l2 & -> & N & D).
    exists (u :: l1), t, l2. repeat split; [|exact D].
    cbn [no_task_named forallb]. rewrite E. exact N.
Qed.

(** The loop passes over a prefix on which the body does not return. *)
Lemma for_each_skip {A} (body : nat -> Task -> M (option A)) σ :
  forall l1 l2 i,
    (forall j t, In t l1 -> body j t σ = (Ok None, σ)) ->
    for_each i (l1 ++ l2) body σ = for_each (i + length l1) l2 body σ.
Proof.
  induction l1 as [|t l1 IH]; intros l2 i H.
  - cbn. f_equal. lia.
  - cbn [app for_each]. unfold mbind, M_bind at 1.
    rewrite (H i t (or_introl eq_refl)).
    rewrite IH by (intros j u Hu; apply H; right; exact Hu).
    f_equal. cbn [length]. lia.
Qed.

Lemma list_remove_first (t : Task) l1 l2 :
  (forall u, In u l1 -> u <> t) -> list_remove t (l1 ++ t :: l2) = Ok (l1 ++ l2).
Proof.
  induction l1 as [|u l1 IH]; intros H; cbn [app list_remove].
  - rewrite bool_decide_eq_true_2 by reflexivity. reflexivity.
  - rewrite bool_decide_eq_false_2 by (apply H; left; reflexivity).
    rewrite IH by (intros v Hv; apply H; right; exact Hv). reflexivity.
Qed.

Lemma no_task_named_In d l u :
  no_task_named d l = true -> In u l -> String.eqb (description u) d = false.
Proof.
  unfold no_task_named. rewrite forallb_forall. intros H Hu.
  apply negb_true_iff, H, Hu.
Qed.

Lemma remove_task_at d l1 t l2 fs :
  no_task_named d l1 = true -> description t = d ->
  remove_task d (mkstate (l1 ++ t :: l2) fs) = (Ok tt, mkstate (l1 ++ l2) fs).
Proof.
  intros N D. unfold remove_task, mbind, M_bind, get_tasks at 1. cbn [tasks].
  rewrite for_each_skip
    by (intros j u Hu; rewrite (no_task_named_In d l1 u N Hu); reflexivity).
  cbn [for_each]. unfold mbind, M_bind, get_tasks, lift, set_tasks.
  rewrite (proj2 (String.eqb_eq _ _) D). cbn [tasks files].
  rewrite list_remove_first; [reflexivity|].
  intros u Hu ->. pose proof (no_task_named_In d l1 t N Hu) as E.
  rewrite (proj2 (String.eqb_eq _ _) D) in E. discriminate.
Qed.

Lemma insert_middle (x y : Task) l1 l2 :
  <[(0 + length l1)%nat := y]> (l1 ++ x :: l2) = l1 ++ y :: l2.
Proof.
  cbn. induction l1 as [|u l1 IH]; [reflexivity|]. cbn. f_equal. exact IH.
Qed.

Lemma mark_completed_at d l1 t l2 fs :
  no_task_named d l1 = true -> description t = d ->
  mark_completed d (mkstate (l1 ++ t :: l2) fs)
  = (Ok tt, mkstate (l1 ++ set_completed t :: l2) fs).
Proof.
  intros N D. unfold mark_completed, mbind, M_bind, get_tasks at 1. cbn [tasks].
  rewrite for_each_skip
    by (intros j u Hu; rewrite (no_task_named_In d l1 u N Hu); reflexivity).
  cbn [for_each]. unfold mbind, M_bind, get_tasks, set_tasks.
  rewrite (proj2 (String.eqb_eq _ _) D). cbn [tasks files].
  rewrite insert_middle. reflexivity.
Qed.

(** X6. When some task has the description, [remove_task] succeeds, takes out
    the first such task and keeps every other task, in order; the files are
    not touched. *)
Theorem remove_task_first_match (σ : state) (d : string) :
  no_task_named d (tasks σ) = false ->
  exists l1 t l2,
    tasks σ = l1 ++ t :: l2 /\ no_task_named d l1 = true /\ description t = d
    /\ remove_task d σ = (Ok tt, mkstate (l1 ++ l2) (files σ)).
Proof.
  intros H. destruct (first_named_split d _ H) as (l1 & t & l2 & E & N & D).
  exists l1, t, l2. repeat split; try assumption.
  destruct σ as [l fs]. cbn [tasks files] in *. subst l.
  apply remove_task_at; assumption.
Qed.

Lemma remove_task_first_match_witness :
  let t1 := mkTask "dup" (mkdate 2025 1 5) "High" false [] in
  let t2 := mkTask "dup" (mkdate 2025 1 6) "Low" false [] in
  exists l1 t l2,
    [tB; t1; t2] = l1 ++ t :: l2 /\ no_task_named "dup" l1 = true /\ description t = "dup"
    /\ remove_task "dup" (mkstate [tB; t1; t2] ∅) = (Ok tt, mkstate (l1 ++ l2) ∅).
Proof.
  apply (remove_task_first_match
           (mkstate [tB; mkTask "dup" (mkdate 2025 1 5) "High" false [];
                     mkTask "dup" (mkdate 2025 1 6) "Low" false []] ∅) "dup").
  reflexivity.
Defined.

(** X7. When some task has the description, [mark_completed] succeeds and sets
    the completed flag of the first such task; every other task, the order
    and the files stay as they were. *)
Theorem mark_completed_first_match (σ : state) (d : string) :
  no_task_named d (tasks σ) = false ->
  exists l1 t l2,
    tasks σ = l1 ++ t :: l2 /\ no_task_named d l1 = true /\ description t = d
    /\ mark_completed d σ = (Ok tt, mkstate (l1 ++ set_completed t :: l2) (files σ)).
Proof.
  intros H. destruct (first_named_split d _ H) as (l1 & t & l2 & E & N & D).
  exists l1, t, l2. repeat split; try assumption.
  destruct σ as [l fs]. cbn [tasks files] in *. subst l.
  apply mark_completed_at; assumption.
Qed.

Lemma mark_completed_first_match_witness :
  let t1 := mkTask "dup" (mkdate 2025 1 5) "High" false [] in
  let t2 := mkTask "dup" (mkdate 2025 1 6) "Low" false [] in
  exists l1 t l2,
    [tB; t1; t2] = l1 ++ t :: l2 /\ no_task_named "dup" l1 = true /\ description t = "dup"
    /\ mark_completed "dup" (mkstate [tB; t1; t2] ∅)
       = (Ok tt, mkstate (l1 ++ set_completed t :: l2) ∅).
Proof.
  apply (mark_completed_first_match
           (mkstate [tB; mkTask "dup" (mkdate 2025 1 5) "High" false [];
                     mkTask "dup" (mkdate 2025 1 6) "Low" false []] ∅) "dup").
  reflexivity.
Defined.

Lemma remove_task_absent d σ :
  no_task_named d (tasks σ) = true -> remove_task d σ = (Raise TaskNotFoundError, σ).
Proof.
  intros N. unfold remove_task, mbind, M_bind, get_tasks at 1.
  rewrite for_each_falls_through; [reflexivity|].
  intros j t Ht. rewrite (no_task_named_In d _ t N Ht). reflexivity.
Qed.

Lemma mark_completed_absent d σ :
  no_task_named d (tasks σ) = true -> mark_completed d σ = (Raise TaskNotFoundError, σ).
Proof.
  intros N. unfold mark_completed, mbind, M_bind, get_tasks at 1.
  rewrite for_each_falls_through; [reflexivity|].
  intros j t Ht. rewrite (no_task_named_In d _ t N Ht). reflexivity.
Qed.

(** The two outcomes of [remove_task]. *)
Lemma remove_task_outcome d σ :
  remove_task d σ = (Raise TaskNotFoundError, σ)
  \/ exists l1 t l2, tasks σ = l1 ++ t :: l2 /\ no_task_named d l1 = true
                     /\ description t = d
                     /\ remove_task d σ = (Ok tt, mkstate (l1 ++ l2) (files σ)).
Proof.
  destruct (no_task_named d (tasks σ)) eqn:N.
  - left. apply remove_task_absent, N.
  - right. destruct (first_named_split d _ N) as (l1 & t & l2 & E & N1 & D).
    exists l1, t, l2. repeat split; try assumption.
    destruct σ as [l fs]. cbn [tasks files] in *. subst l.
    apply remove_task_at; assumption.
Qed.

(** The two outcomes of [mark_completed]. *)
Lemma mark_completed_outcome d σ :
  mark_completed d σ = (Raise TaskNotFoundError, σ)
  \/ exists l1 t l2, tasks σ = l1 ++ t :: l2 /\ no_task_named d l1 = true
                     /\ description t = d
                     /\ mark_completed d σ
                        = (Ok tt, mkstate (l1 ++ set_completed t :: l2) (files σ)).
Proof.
  destruct (no_task_named d (tasks σ)) eqn:N.
  - left. apply mark_completed_absent, N.
  - right. destruct (first_named_split d _ N) as (l1 & t & l2 & E & N1 & D).
    exists l1, t, l2. repeat split; try assumption.
    destruct σ as [l fs]. cbn [tasks files] in *. subst l.
    apply mark_completed_at; assumption.
Qed.

(** X8. Completing a task that is completed already changes nothing: after a
    successful [mark_completed], the same call succeeds again and leaves the
    store as it is. *)
Theorem mark_completed_idempotent (σ σ1 : state) (d : string) :
  mark_completed d σ = (Ok tt, σ1) -> mark_completed d σ1 = (Ok tt, σ1).
Proof.
  intros H. destruct (mark_completed_outcome d σ) as [E|(l1 & t & l2 & E & N & D & R)].
  - rewrite E in H. discriminate.
  - rewrite R in H. injection H as <-.
    apply (mark_completed_at d l1 (set_completed t) l2 (files σ) N D).
Qed.

Lemma mark_completed_idempotent_witness :
  mark_completed "B" (mkstate [tA; set_completed tB; tC] ∅)
  = (Ok tt, mkstate [tA; set_completed tB; tC] ∅).
Proof.
  apply (mark_completed_idempotent (mkstate [tA; tB; tC] ∅) _ "B"). reflexivity.
Defined.

(** X9. Adding a task whose description no task of the store has, and removing
    by that description right after, gives the store back as it was. *)
Theorem add_then_remove (σ : state) (t : Task) :
  no_task_named (description t) (tasks σ) = true ->
  (add_task t;; remove_task (description t)) σ = (Ok tt, σ).
Proof.
  intros N. destruct σ as [l fs]. cbn [tasks] in N.
  unfold mbind at 1. unfold M_bind at 1. unfold add_task, mbind, M_bind, get_tasks, set_tasks.
  cbn [tasks files].
  rewrite (remove_task_at (description t) l t [] fs N eq_refl), app_nil_r. reflexivity.
Qed.

Lemma add_then_remove_witness :
  (add_task tC;; remove_task "C") (mkstate [tA; tB] ∅) = (Ok tt, mkstate [tA; tB] ∅).
Proof. apply (add_then_remove (mkstate [tA; tB] ∅) tC). reflexivity. Defined.

(** X10. Adding a task under a description that is taken, and removing by that
    description, removes the older task and keeps the one just added. *)
Theorem add_duplicate_then_remove (l1 l2 : list Task) (fs : gmap string file) (old t : Task) :
  description old = description t ->
  no_task_named (description t) l1 = true ->
  (add_task t;; remove_task (description t)) (mkstate (l1 ++ old :: l2) fs)
  = (Ok tt, mkstate (l1 ++ l2 ++ [t]) fs).
Proof.
  intros D N.
  unfold mbind at 1. unfold M_bind at 1. unfold add_task, mbind, M_bind, get_tasks, set_tasks.
  cbn [tasks files]. rewrite <- app_assoc. cbn [app].
  apply (remove_task_at (description t) l1 old (l2 ++ [t]) fs N D).
Qed.

Lemma add_duplicate_then_remove_witness :
  (add_task (mkTask "B" (mkdate 2026 2 2) "High" false []);; remove_task "B")
    (mkstate [tA; tB; tC] ∅)
  = (Ok tt, mkstate [tA; tC; mkTask "B" (mkdate 2026 2 2) "High" false []] ∅).
Proof.
  apply (add_duplicate_then_remove [tA] [tC] ∅ tB
           (mkTask "B" (mkdate 2026 2 2) "High" false [])); reflexivity.
Defined.

(* ===================================================================== *)
(** ** ToDoList: what listing does and does not do *)
(* ===================================================================== *)

Lemma comprehension_sublist cond : forall l r,
  comprehension l cond = Ok r -> r `sublist_of` l.
Proof.
  induction l as [|t l IH]; intros r; cbn [comprehension].
  - intros [= <-]. constructor.
  - destruct (cond t) as [b|e]; [|discriminate]. cbn.
    destruct (comprehension l cond) as [r'|e]; [|discriminate]. cbn.
    intros [= <-]. specialize (IH r' eq_refl).
    destruct b; [apply sublist_skip|apply sublist_cons]; exact IH.
Qed.

Lemma list_tasks_keeps_state_aux (σ : state) (filter_by value : option string) :
  snd (list_tasks filter_by value σ) = σ.
Proof.
  unfold list_tasks, mbind, M_bind, get_tasks, lift.
  repeat case_bool_decide; try reflexivity.
  destruct (strptime_of value); reflexivity.
Qed.

(** X11. Listing never changes the store or the files, whatever the filter kind
    and the value, and also when it raises. *)
Theorem list_tasks_keeps_state (σ : state) (filter_by value : option string) :
  snd (list_tasks filter_by value σ) = σ.
Proof.
  unfold list_tasks, mbind, M_bind, get_tasks, lift.
  repeat case_bool_decide; try reflexivity.
  destruct (strptime_of value) as [d|e]; reflexivity.
Qed.

(** X12. A list that listing returns is a sub-sequence of the store's tasks: no
    task is made up, repeated or moved. *)
Theorem list_tasks_sublist (σ : state) (filter_by value : option string) (r : list Task) :
  fst (list_tasks filter_by value σ) = Ok r -> r `sublist_of` tasks σ.
Proof.
  unfold list_tasks, mbind, M_bind, get_tasks, lift.
  repeat case_bool_decide; cbn [fst].
  - apply comprehension_sublist.
  - destruct (strptime_of value); cbn [fst]; [apply comprehension_sublist|discriminate].
  - apply comprehension_sublist.
  - apply comprehension_sublist.
  - intros [= <-]. reflexivity.
Qed.

Lemma list_tasks_sublist_witness :
  [tA; tC] `sublist_of` tasks (mkstate [tA; tB; tC] ∅).
Proof.
  apply (list_tasks_sublist (mkstate [tA; tB; tC] ∅) (Some "priority") (Some "HIGH")).
  reflexivity.
Defined.

Lemma elem_of_map_lower v l :
  bool_decide (lower v ∈ List.map lower l)
  = existsb (fun tag => String.eqb (lower v) (lower tag)) l.
Proof.
  induction l as [|x l IH]; cbn [List.map existsb].
  - apply bool_decide_eq_false. inversion 1.
  - rewrite <- IH.
    destruct (String.eqb_spec (lower v) (lower x)) as [E|E]; cbn [orb].
    + apply bool_decide_eq_true. rewrite E. left.
    + destruct (bool_decide (lower v ∈ List.map lower l)) eqn:B.
      * apply bool_decide_eq_true. right. apply bool_decide_eq_true in B. exact B.
      * apply bool_decide_eq_false. apply bool_decide_eq_false in B.
        intros H. apply elem_of_cons in H as [H|H]; [exact (E H)|exact (B H)].
Qed.

(** X13. Listing with filter kind "tag" and value [v] returns, in store
    order, the tasks one of whose tags, lower-cased, is the lower-cased [v];
    the store is left as it was. *)
Theorem list_by_tag (σ : state) (v : string) :
  list_tasks (Some "tag") (Some v) σ = (Ok (List.filter (has_tag v) (tasks σ)), σ).
Proof.
  unfold list_tasks, mbind, M_bind, get_tasks, lift.
  rewrite bool_decide_eq_false_2 by discriminate.
  rewrite bool_decide_eq_false_2 by discriminate.
  rewrite bool_decide_eq_true_2 by reflexivity.
  rewrite (comprehension_filter (has_tag v)); [reflexivity|].
  intros t. cbn. unfold has_tag. rewrite elem_of_map_lower. reflexivity.
Qed.

Lemma prefix_iff a : forall b,
  String.prefix a b = true <-> exists post, b = (a +:+ post)%string.
Proof.
  induction a as [|x a IH]; intros b.
  - split; [intros _; exists b; reflexivity|intros _; destruct b; reflexivity].
  - destruct b as [|y b]; cbn.
    + split; [discriminate|intros [post [=]]].
    + destruct (ascii_dec x y) as [->|N].
      * rewrite IH. split; intros [post E]; exists post.
        -- rewrite E. reflexivity.
        -- injection E as E. exact E.
      * split; [discriminate|]. intros [post E]. injection E as E1 E2.
        congruence.
Qed.

(** [a in b] holds exactly when [b] is some text, then [a], then some
    text. *)
Lemma contains_iff a : forall b,
  contains a b = true <-> exists pre post, b = (pre +:+ a +:+ post)%string.
Proof.
  induction b as [|y b IH]; cbn [contains].
  - rewrite orb_false_r, prefix_iff. split.
    + intros [post E]. exists EmptyString, post. exact E.
    + intros ([|c pre] & post & E); [exists post; exact E|discriminate].
  - rewrite orb_true_iff, prefix_iff, IH. split.
    + intros [[post E]|(pre & post & E)].
      * exists EmptyString, post. exact E.
      * exists (String y pre), post. cbn. rewrite E. reflexivity.
    + intros ([|c pre] & post & E).
      * left. exists post. exact E.
      * right. cbn in E. injection E as E1 E2. exists pre, post. exact E2.
Qed.

(** X14. Listing with filter kind "keyword" and value [v] returns, in store
    order, the tasks in whose description [v] occurs as a piece of text
    when both are lower-cased. *)
Theorem list_by_keyword (σ : state) (v : string) :
  exists f : Task -> bool,
    list_tasks (Some "keyword") (Some v) σ = (Ok (List.filter f (tasks σ)), σ)
    /\ forall t, f t = true <->
         exists pre post, lower (description t) = (pre +:+ lower v +:+ post)%string.
Proof.
  exists (fun t => contains (lower v) (lower (description t))). split.
  - unfold list_tasks, mbind, M_bind, get_tasks, lift.
    do 3 rewrite bool_decide_eq_false_2 by discriminate.
    rewrite bool_decide_eq_true_2 by reflexivity.
    rewrite (comprehension_filter (fun t => contains (lower v) (lower (description t))));
      reflexivity.
  - intros t. apply contains_iff.
Qed.

Lemma filter_all {A} (f : A -> bool) l : (forall x, f x = true) -> List.filter f l = l.
Proof.
  intros H. induction l as [|x l IH]; [reflexivity|]. cbn. rewrite H, IH. reflexivity.
Qed.

(** X15. The empty keyword occurs in every description: the search lists all
    tasks. *)
Theorem list_by_empty_keyword (σ : state) :
  list_tasks (Some "keyword") (Some EmptyString) σ = (Ok (tasks σ), σ).
Proof.
  unfold list_tasks, mbind, M_bind, get_tasks, lift.
  do 3 rewrite bool_decide_eq_false_2 by discriminate.
  rewrite bool_decide_eq_true_2 by reflexivity.
  rewrite (comprehension_filter (fun _ => true)).
  - rewrite filter_all; reflexivity.
  - intros t. cbn. destruct (lower (description t)); reflexivity.
Qed.

(** X16. Without a value ([value] left at [None]) the filters "priority", "tag"
    and "keyword" raise [AttributeError] as soon as the store holds a task,
    and return the empty list on the empty store; the filter "due_date"
    raises [TypeError] on every store. *)
Theorem list_tasks_without_value (σ : state) :
  let r := match tasks σ with [] => Ok [] | _ :: _ => Raise AttributeError end in
  list_tasks (Some "priority") None σ = (r, σ)
  /\ list_tasks (Some "tag") None σ = (r, σ)
  /\ list_tasks (Some "keyword") None σ = (r, σ)
  /\ list_tasks (Some "due_date") None σ = (Raise TypeError, σ).
Proof.
  cbv zeta. unfold list_tasks, mbind, M_bind, get_tasks, lift.
  repeat split;
    repeat (rewrite bool_decide_eq_false_2 by discriminate);
    rewrite bool_decide_eq_true_2 by reflexivity;
    destruct (tasks σ); reflexivity.
Qed.

Lemma list_by_due_date_witness :
  list_tasks (Some "due_date") (Some "2025-1-6") (mkstate [tA; tB; tC] ∅)
  = (Ok (List.filter (fun t => bool_decide (due_date t = mkdate 2025 1 6)) [tA; tB; tC]),
     mkstate [tA; tB; tC] ∅).
Proof.
  apply (list_by_due_date (mkstate [tA; tB; tC] ∅) "2025-1-6" (mkdate 2025 1 6)).
  reflexivity.
Defined.

(* ===================================================================== *)
(** ** ToDoList: loading *)
(* ===================================================================== *)

Lemma from_dicts_Forall2 : forall doc l,
  from_dicts doc = Ok l <-> Forall2 (fun d t => from_dict d = Ok t) doc l.
Proof.
  induction doc as [|d doc IH]; intros l; cbn [from_dicts].
  - split; [intros [= <-]; constructor|inversion 1; reflexivity].
  - split.
    + destruct (from_dict d) as [t|e] eqn:E; [|discriminate]. cbn.
      destruct (from_dicts doc) as [l'|e] eqn:F; [|discriminate]. cbn.
      intros [= <-]. constructor; [exact E|]. apply IH. reflexivity.
    + inversion 1 as [|d' t doc' l' E F]; subst. rewrite E. cbn.
      apply IH in F. rewrite F. reflexivity.
Qed.

Lemma from_dicts_raises doc e :
  from_dicts doc = Raise e ->
  e = KeyError \/ e = InvalidDateError \/ e = InvalidPriorityError.
Proof.
  induction doc as [|d doc IH]; cbn [from_dicts]; [discriminate|].
  destruct (from_dict d) as [t|e'] eqn:E; cbn.
  - destruct (from_dicts doc) as [l'|e'']; cbn; [discriminate|].
    intros [= <-]. apply IH. reflexivity.
  - intros [= <-]. apply (from_dict_raises d e' E).
Qed.

Lemma from_dicts_store_ok doc l : from_dicts doc = Ok l -> forallb Task_ok l = true.
Proof.
  rewrite from_dicts_Forall2. induction 1 as [|d t doc l E _ IH]; [reflexivity|].
  cbn. rewrite (from_dict_Task_ok d t E), IH. reflexivity.
Qed.

(** What [load_from_file] does, by the content of the file. *)
Lemma load_from_file_cases path σ :
  load_from_file path σ =
  match files σ !! path with
  | None => (Ok tt, mkstate [] (files σ))
  | Some NotJson => (Raise JSONDecodeError, σ)
  | Some (JsonDoc doc) =>
      match from_dicts doc with
      | Ok l => (Ok tt, mkstate l (files σ))
      | Raise e => (Raise e, σ)
      end
  end.
Proof.
  unfold load_from_file, try_catch, read_json, mbind, M_bind, lift.
  destruct (files σ !! path) as [[doc|]|]; try reflexivity.
  destruct (from_dicts doc) as [l|e] eqn:E; [reflexivity|].
  destruct (from_dicts_raises doc e E) as [->|[->| ->]]; reflexivity.
Qed.



(** X20. A load that succeeds replaces the tasks of the store, whatever they
    were, by one valid Task per record of the file, in the order of the file
    (none for a file that does not exist); the files are not touched. *)
Theorem load_replaces_tasks (path : string) (l : list Task) (fs : gmap string file) (σ' : state) :
  load_from_file path (mkstate l fs) = (Ok tt, σ') ->
  files σ' = fs
  /\ store_ok σ' = true
  /\ Forall2 (fun d t => from_dict d = Ok t)
       (match fs !! path with Some (JsonDoc doc) => doc | _ => [] end) (tasks σ')
  /\ forall l', load_from_file path (mkstate l' fs) = (Ok tt, σ').
Proof.
  rewrite load_from_file_cases. cbn [files].
  destruct (fs !! path) as [[doc|]|] eqn:F; try discriminate.
  - destruct (from_dicts doc) as [l0|e] eqn:E; [|discriminate].
    intros [= <-]. repeat split.
    + apply (from_dicts_store_ok doc l0 E).
    + apply from_dicts_Forall2, E.
    + intros l'. rewrite load_from_file_cases. cbn [files]. rewrite F, E. reflexivity.
  - intros [= <-]. repeat split; [constructor|].
    intros l'. rewrite load_from_file_cases. cbn [files]. rewrite F. reflexivity.
Qed.

Lemma load_replaces_tasks_witness :
  let fs : gmap string file :=
    {["tasks.json" := JsonDoc [mkDict (Some "B") (Some "2025-1-6") (Some "LOW") None
                                      (Some ["personal"])]]} in
  let σ' := mkstate [tB] fs in
  files σ' = fs
  /\ store_ok σ' = true
  /\ Forall2 (fun d t => from_dict d = Ok t)
       (match fs !! "tasks.json" with Some (JsonDoc doc) => doc | _ => [] end) (tasks σ')
  /\ forall l', load_from_file "tasks.json" (mkstate l' fs) = (Ok tt, σ').
Proof.
  apply (load_replaces_tasks "tasks.json" [tA; tC]). reflexivity.
Defined.

Lemma load_missing_file_witness :
  load_from_file "tasks.json" (mkstate [tA; tB] ∅) = (Ok tt, mkstate [] ∅).
Proof. apply (load_missing_file [tA; tB] ∅ "tasks.json"). reflexivity. Defined.



(* ===================================================================== *)
(** ** The menu: tags typed on a line *)
(* ===================================================================== *)

Lemma lstrip_ws_clean s : starts_clean (lstrip_ws s).
Proof.
  induction s as [|c s IH]; cbn; [exact I|].
  destruct (is_space c) eqn:E; [exact IH|exact E].
Qed.

Lemma lstrip_ws_id s : starts_clean s -> lstrip_ws s = s.
Proof. destruct s as [|c s]; cbn; [reflexivity|]. intros ->. reflexivity. Qed.

Lemma rstrip_ws_idem s : rstrip_ws (rstrip_ws s) = rstrip_ws s.
Proof.
  induction s as [|c s IH]; [reflexivity|]. cbn [rstrip_ws].
  destruct (rstrip_ws s) as [|c' s'] eqn:E.
  - destruct (is_space c) eqn:S; [reflexivity|]. cbn. rewrite S. reflexivity.
  - remember (String c' s') as x eqn:X. cbn [rstrip_ws]. rewrite IH, X. reflexivity.
Qed.

Lemma rstrip_ws_clean s : starts_clean s -> starts_clean (rstrip_ws s).
Proof.
  destruct s as [|c s]; cbn; [auto|]. intros E.
  destruct (rstrip_ws s); [rewrite E|]; exact E.
Qed.

Lemma strip_idem s : strip (strip s) = strip s.
Proof.
  unfold strip. rewrite (lstrip_ws_id (rstrip_ws (lstrip_ws s))).
  - apply rstrip_ws_idem.
  - apply rstrip_ws_clean, lstrip_ws_clean.
Qed.

Lemma has_comma_lstrip s : has_comma s = false -> has_comma (lstrip_ws s) = false.
Proof.
  induction s as [|c s IH]; [reflexivity|]. cbn [has_comma lstrip_ws].
  intros H. apply orb_false_elim in H as [H1 H2].
  destruct (is_space c); [apply IH, H2|]. cbn. rewrite H1, H2. reflexivity.
Qed.

Lemma has_comma_rstrip s : has_comma s = false -> has_comma (rstrip_ws s) = false.
Proof.
  induction s as [|c s IH]; [reflexivity|]. cbn [has_comma rstrip_ws].
  intros H. apply orb_false_elim in H as [H1 H2]. specialize (IH H2).
  destruct (rstrip_ws s) as [|c' s'].
  - destruct (is_space c); [reflexivity|]. cbn. rewrite H1. reflexivity.
  - cbn [has_comma] in *. rewrite H1, IH. reflexivity.
Qed.

Lemma split_comma_pieces s : Forall (fun x => has_comma x = false) (split_comma s).
Proof.
  induction s as [|c s IH]; cbn [split_comma].
  - repeat constructor.
  - destruct (Ascii.eqb c ",") eqn:E.
    + constructor; [reflexivity|exact IH].
    + destruct (split_comma s) as [|x l]; [repeat constructor; cbn; rewrite E; reflexivity|].
      inversion IH as [|? ? Hx Hl]; subst. constructor; [|exact Hl].
      cbn. rewrite E, Hx. reflexivity.
Qed.

(** X24. The tags read from a line are never empty, never begin or end with
    white space and never hold a comma. *)
Theorem read_tags_clean (line t : string) :
  In t (read_tags line) ->
  t <> EmptyString /\ strip t = t /\ has_comma t = false.
Proof.
  unfold read_tags. rewrite in_map_iff. intros (x & <- & Hx).
  apply filter_In in Hx as [Hx N]. repeat split.
  - intros E. rewrite E in N. discriminate.
  - apply strip_idem.
  - unfold strip. apply has_comma_rstrip, has_comma_lstrip.
    pose proof (split_comma_pieces (strip line)) as F.
    rewrite Forall_forall in F. apply F. apply list_elem_of_In, Hx.
Qed.

Lemma read_tags_clean_witness :
  "bills" <> EmptyString /\ strip "bills" = "bills" /\ has_comma "bills" = false.
Proof.
  apply (read_tags_clean " home , ,bills, " "bills"). vm_compute. auto.
Defined.

(* ===================================================================== *)
(** ** ToDoList: failures of listing, validity of the store *)
(* ===================================================================== *)

Lemma list_tasks_failure_aux (σ σ' : state) (filter_by : option string) (v : string) (e : exn) :
  list_tasks filter_by (Some v) σ = (Raise e, σ')
  <-> filter_by = Some "due_date" /\ matches_format v = false
      /\ e = ValueError /\ σ' = σ.
Proof.
  split.
  - unfold list_tasks, mbind, M_bind, get_tasks, lift.
    repeat case_bool_decide; cbn [strptime_of lower_of mbind result_bind].
    + erewrite comprehension_filter by (intros; reflexivity). discriminate.
    + destruct (strptime_raises v) as [[d E]|E]; rewrite E.
      * erewrite comprehension_filter by (intros; reflexivity). discriminate.
      * intros [= <- <-]. repeat split; [assumption|]. apply matches_format_false, E.
    + erewrite comprehension_filter by (intros; reflexivity). discriminate.
    + erewrite comprehension_filter by (intros; reflexivity). discriminate.
    + discriminate.
  - intros (-> & F & -> & ->). apply list_by_due_date_unparsed, F.
Qed.

(** X18. Given a value, listing fails only for the filter kind "due_date" with a
    value that does not parse, and then with [ValueError] and the store
    untouched. *)
Theorem list_tasks_failure (σ σ' : state) (filter_by : option string) (v : string) (e : exn) :
  list_tasks filter_by (Some v) σ = (Raise e, σ')
  <-> filter_by = Some "due_date" /\ matches_format v = false
      /\ e = ValueError /\ σ' = σ.
Proof.
  split.
  - unfold list_tasks, mbind, M_bind, get_tasks, lift.
    repeat case_bool_decide; cbn [strptime_of lower_of mbind result_bind].
    + erewrite comprehension_filter by (intros; reflexivity). discriminate.
    + destruct (strptime_raises v) as [[d E]|E]; rewrite E.
      * erewrite comprehension_filter by (intros; reflexivity). discriminate.
      * intros [= <- <-]. repeat split; [assumption|]. apply matches_format_false, E.
    + erewrite comprehension_filter by (intros; reflexivity). discriminate.
    + erewrite comprehension_filter by (intros; reflexivity). discriminate.
    + discriminate.
  - intros (-> & F & -> & ->). apply list_by_due_date_unparsed, F.
Qed.

Lemma Task_ok_set_completed t : Task_ok (set_completed t) = Task_ok t.
Proof. reflexivity. Qed.

Lemma store_ok_remove d σ : store_ok σ = true -> store_ok (snd (remove_task d σ)) = true.
Proof.
  intros K. destruct (remove_task_outcome d σ) as [E|(l1 & t & l2 & E & _ & _ & R)].
  - rewrite E. exact K.
  - rewrite R. unfold store_ok in *. cbn [snd tasks]. rewrite E in K.
    rewrite forallb_app in *. cbn [forallb] in K.
    apply andb_prop in K as [K1 K2]. apply andb_prop in K2 as [_ K2].
    rewrite K1, K2. reflexivity.
Qed.

Lemma store_ok_mark d σ : store_ok σ = true -> store_ok (snd (mark_completed d σ)) = true.
Proof.
  intros K. destruct (mark_completed_outcome d σ) as [E|(l1 & t & l2 & E & _ & _ & R)].
  - rewrite E. exact K.
  - rewrite R. unfold store_ok in *. cbn [snd tasks]. rewrite E in K.
    rewrite forallb_app in *. cbn [forallb] in *. rewrite Task_ok_set_completed. exact K.
Qed.

Lemma store_ok_add t σ :
  Task_ok t = true -> store_ok σ = true -> store_ok (snd (add_task t σ)) = true.
Proof.
  intros T K. unfold store_ok, add_task, mbind, M_bind, get_tasks, set_tasks in *.
  cbn [snd tasks]. rewrite forallb_app, K. cbn. rewrite T. reflexivity.
Qed.

Lemma store_ok_load path σ : store_ok σ = true -> store_ok (snd (load_from_file path σ)) = true.
Proof.
  intros K. rewrite load_from_file_cases.
  destruct (files σ !! path) as [[doc|]|]; try assumption; [|reflexivity].
  destruct (from_dicts doc) as [l|e] eqn:E; [|assumption].
  apply (from_dicts_store_ok doc l E).
Qed.

(** X23. A store whose tasks are all valid stays so through every method,
    whatever the arguments and the outcome (for [add_task], given a valid
    Task). *)
Theorem store_ok_preserved (σ : state) :
  store_ok σ = true ->
  (forall t, Task_ok t = true -> store_ok (snd (add_task t σ)) = true)
  /\ (forall d, store_ok (snd (remove_task d σ)) = true)
  /\ (forall d, store_ok (snd (mark_completed d σ)) = true)
  /\ (forall filter_by value, store_ok (snd (list_tasks filter_by value σ)) = true)
  /\ (forall path, store_ok (snd (save_to_file path σ)) = true)
  /\ (forall path, store_ok (snd (load_from_file path σ)) = true).
Proof.
  intros K. repeat split; intros.
  - apply store_ok_add; assumption.
  - apply store_ok_remove, K.
  - apply store_ok_mark, K.
  - rewrite list_tasks_keeps_state_aux. exact K.
  - exact K.
  - apply store_ok_load, K.
Qed.

Lemma store_ok_preserved_witness :
  let σ := mkstate [tA; tB; tC] ∅ in
  (forall t, Task_ok t = true -> store_ok (snd (add_task t σ)) = true)
  /\ (forall d, store_ok (snd (remove_task d σ)) = true)
  /\ (forall d, store_ok (snd (mark_completed d σ)) = true)
  /\ (forall filter_by value, store_ok (snd (list_tasks filter_by value σ)) = true)
  /\ (forall path, store_ok (snd (save_to_file path σ)) = true)
  /\ (forall path, store_ok (snd (load_from_file path σ)) = true).
Proof. apply (store_ok_preserved (mkstate [tA; tB; tC] ∅)). reflexivity. Defined.

(* ===================================================================== *)
(** ** The menu loop *)
(* ===================================================================== *)

Lemma good_refl w : store_ok (store w) = true -> good w w.
Proof. intros K. repeat split; [exact K|lia]. Qed.

Lemma good_trans w1 w2 w3 : good w1 w2 -> good w2 w3 -> good w1 w3.
Proof.
  intros (A1 & B1 & C1) (A2 & B2 & C2). repeat split; [exact A2|congruence|lia].
Qed.

Lemma spec_ret {A} (a : A) (Q : A -> Prop) : Q a -> spec (mret a) Q.
Proof. intros H w K. cbn. split; [apply good_refl, K|exact H]. Qed.

Lemma spec_bind {A B} (m : IO A) (k : A -> IO B) (Q1 : A -> Prop) (Q2 : B -> Prop) :
  spec m Q1 -> (forall a, Q1 a -> spec (k a) Q2) -> spec (m ≫= k) Q2.
Proof.
  intros Hm Hk w K. specialize (Hm w K). unfold mbind, IO_bind.
  destruct (m w) as [[a|e msg|] w1].
  - destruct Hm as [G Ha]. specialize (Hk a Ha w1 (proj1 G)).
    destruct (k a w1) as [[b|e msg|] w2].
    + destruct Hk as [G2 Hb]. split; [exact (good_trans _ _ _ G G2)|exact Hb].
    + destruct Hk as [G2 He]. split; [exact (good_trans _ _ _ G G2)|exact He].
    + exact (good_trans _ _ _ G Hk).
  - exact Hm.
  - exact Hm.
Qed.

(** [good] between a world and one built from its parts. *)
Ltac show_good := unfold good; cbn [store stdin stdout]; repeat split; first [assumption|lia].

Lemma spec_print s : spec (print s) (fun _ => True).
Proof. intros w K. cbn. split; [show_good|exact I]. Qed.

Lemma spec_input p : spec (input p) (fun _ => True).
Proof.
  intros w K. unfold input.
  destruct (stdin w) as [|line rest] eqn:E; [|split; [|exact I]];
    unfold good; cbn [store stdin stdout]; rewrite E; cbn [length];
    repeat split; first [assumption|lia].
Qed.

Lemma spec_print_tasks l : spec (print_tasks l) (fun _ => True).
Proof.
  induction l as [|t l IH]; cbn [print_tasks].
  - apply spec_ret. exact I.
  - eapply spec_bind; [apply spec_print|]. intros _ _. exact IH.
Qed.

Lemma menu_handles_iff e :
  menu_handles e = true
  <-> e = InvalidDateError \/ e = InvalidPriorityError \/ e = TaskNotFoundError.
Proof. destruct e; cbn; split; intros H; try discriminate; tauto || (repeat destruct H as [H|H]; discriminate). Qed.

Lemma spec_construct desc s p tgs c :
  spec (construct (Task_init desc s p tgs c)) (fun t => Task_ok t = true).
Proof.
  intros w K. unfold construct.
  destruct (Task_init desc s p tgs c) as [t|e] eqn:E.
  - split; [apply good_refl, K|]. apply (Task_init_Task_ok _ _ _ _ _ _ E).
  - split; [apply good_refl, K|]. left. apply menu_handles_iff.
    destruct (Task_init_raises _ _ _ _ _ _ E); auto.
Qed.

(** A method call that keeps the files and the validity of the store and
    raises nothing but what the menu handles or [ValueError]. *)
Lemma spec_call {A} arg (m : M A) :
  (forall σ, store_ok σ = true ->
     store_ok (snd (m σ)) = true /\ files (snd (m σ)) = files σ
     /\ forall e, fst (m σ) = Raise e -> menu_handles e = true \/ e = ValueError) ->
  spec (call arg m) (fun _ => True).
Proof.
  intros H w K. destruct (H (store w) K) as (A1 & A2 & A3). unfold call.
  destruct (m (store w)) as [[a|e] σ]; cbn [fst snd] in *.
  - split; [show_good|exact I].
  - split; [show_good|]. apply A3. reflexivity.
Qed.

Lemma spec_add t : Task_ok t = true -> spec (call EmptyString (add_task t)) (fun _ => True).
Proof.
  intros T. apply spec_call. intros σ K. split; [apply store_ok_add; assumption|].
  split; [reflexivity|]. intros e [=].
Qed.

Lemma spec_list filter_by v :
  spec (call EmptyString (list_tasks filter_by (Some v))) (fun _ => True).
Proof.
  apply spec_call. intros σ K. rewrite list_tasks_keeps_state_aux.
  split; [exact K|]. split; [reflexivity|]. intros e E. right.
  destruct (list_tasks filter_by (Some v) σ) as [r σ'] eqn:L. cbn in E. subst r.
  apply list_tasks_failure_aux in L. tauto.
Qed.

Lemma spec_list_all : spec (call EmptyString (list_tasks None None)) (fun _ => True).
Proof.
  apply spec_call. intros σ K. split; [exact K|]. split; [reflexivity|]. intros e [=].
Qed.

Lemma files_remove d σ : files (snd (remove_task d σ)) = files σ.
Proof.
  destruct (remove_task_outcome d σ) as [E|(l1 & t & l2 & _ & _ & _ & R)];
    [rewrite E|rewrite R]; reflexivity.
Qed.

Lemma files_mark d σ : files (snd (mark_completed d σ)) = files σ.
Proof.
  destruct (mark_completed_outcome d σ) as [E|(l1 & t & l2 & _ & _ & _ & R)];
    [rewrite E|rewrite R]; reflexivity.
Qed.

Lemma spec_remove d : spec (call d (remove_task d)) (fun _ => True).
Proof.
  apply spec_call. intros σ K. split; [apply store_ok_remove, K|].
  split; [apply files_remove|]. intros e E. left.
  destruct (remove_task_outcome d σ) as [R|(l1 & t & l2 & _ & _ & _ & R)];
    rewrite R in E; cbn in E; [injection E as <-; reflexivity|discriminate].
Qed.

Lemma spec_mark d : spec (call d (mark_completed d)) (fun _ => True).
Proof.
  apply spec_call. intros σ K. split; [apply store_ok_mark, K|].
  split; [apply files_mark|]. intros e E. left.
  destruct (mark_completed_outcome d σ) as [R|(l1 & t & l2 & _ & _ & _ & R)];
    rewrite R in E; cbn in E; [injection E as <-; reflexivity|discriminate].
Qed.

Create HintDb menu.
#[local] Hint Resolve spec_print spec_input spec_print_tasks spec_construct
  spec_add spec_list spec_list_all spec_remove spec_mark : menu.

(** Run a branch of the menu: one rule per statement. *)
Ltac run_branch :=
  repeat first
    [ apply spec_ret; reflexivity
    | eapply spec_bind; [solve [eauto with menu]|intros ? ?] ].

(** Every choice but 9 keeps the files and the validity of the store, and
    goes on with the loop when it returns. *)
Lemma choose_spec choice :
  String.eqb choice "9" = false -> spec (choose choice) (fun nx => nx = Continue).
Proof.
  intros N. unfold choose.
  repeat match goal with
         | |- context [if String.eqb choice ?c then _ else _] =>
             destruct (String.eqb choice c)
         end; try discriminate; run_branch.
  eapply spec_bind with (Q1 := fun _ => True).
  - destruct a; [apply spec_print|apply spec_ret; exact I].
  - intros _ _. run_branch.
Qed.

Lemma try_menu_spec choice w :
  String.eqb choice "9" = false -> store_ok (store w) = true ->
  match try_menu (choose choice) w with
  | (Done nx, w') => good w w' /\ nx = Continue
  | (Failed e _, w') => good w w' /\ e = ValueError
  | (EndOfInput, w') => good w w'
  end.
Proof.
  intros N K. pose proof (choose_spec choice N w K) as H. unfold try_menu.
  destruct (choose choice w) as [[nx|e msg|] w1]; [exact H| |exact H].
  destruct H as [G [H|H]].
  - rewrite H. cbn. split; [|reflexivity].
    apply (good_trans _ _ _ G). destruct G as (G1 & _). show_good.
  - subst e. cbn. split; [exact G|reflexivity].
Qed.

Lemma choose_exit w :
  try_menu (choose "9") w
  = (Done Break,
     mkworld (mkstate (tasks (store w)) (saved (files (store w)) (store w)))
             (stdin w) (stdout w ++ [Print "Tasks saved. Goodbye!"])).
Proof. reflexivity. Qed.

(** One turn of the loop from a valid store. *)
Lemma iteration_step w :
  store_ok (store w) = true ->
  match iteration w with
  | (Done Continue, w') => good w w' /\ (length (stdin w') < length (stdin w))%nat
  | (Done Break, w') => ends_well w (Exited, w')
  | (Failed e _, w') => ends_well w (Crashed e, w')
  | (EndOfInput, w') => ends_well w (InputClosed, w')
  end.
Proof.
  intros K. unfold iteration, mbind, IO_bind, print, input. cbn [stdin store stdout].
  destruct (stdin w) as [|line rest] eqn:E; [reflexivity|].
  destruct (String.eqb (strip line) "9") eqn:N.
  - apply String.eqb_eq in N. rewrite N, choose_exit. cbn. split; [exact K|reflexivity].
  - match goal with |- context [try_menu _ ?w1] =>
      pose proof (try_menu_spec (strip line) w1 N K) as H;
      destruct (try_menu (choose (strip line)) w1) as [[nx|e msg|] w']
    end.
    + destruct H as [(G1 & G2 & G3) ->]. cbn [store stdin] in *.
      unfold good. rewrite E. cbn [length]. repeat split; [exact G1|exact G2|lia|lia].
    + destruct H as [(G1 & G2 & G3) ->]. split; [reflexivity|exact G2].
    + destruct H as (G1 & G2 & G3). exact G2.
Qed.

Lemma ends_well_from w1 w2 r :
  files (store w2) = files (store w1) -> ends_well w2 r -> ends_well w1 r.
Proof.
  intros F. destruct r as [[ |e| | ] w']; cbn; rewrite ?F; auto.
Qed.

(** The loop, with more turns allowed than there are lines to read. *)
Lemma main_loop_ends_well : forall fuel w,
  store_ok (store w) = true -> (length (stdin w) < fuel)%nat ->
  ends_well w (main_loop fuel w).
Proof.
  induction fuel as [|fuel IH]; intros w K L; [lia|]. cbn [main_loop].
  pose proof (iteration_step w K) as H.
  destruct (iteration w) as [[[ | ]|e msg|] w']; try exact H.
  destruct H as [(G1 & G2 & G3) Hlt]. apply (ends_well_from w w' _ G2).
  apply IH; [exact G1|lia].
Qed.

Lemma files_load path σ : files (snd (load_from_file path σ)) = files σ.
Proof.
  rewrite load_from_file_cases.
  destruct (files σ !! path) as [[doc|]|]; try reflexivity.
  destruct (from_dicts doc); reflexivity.
Qed.

(** [main] from the files [fs]: either the load at the start fails and the
    program ends there, or the loop runs from a valid store over [fs]. *)
Lemma main_cases fs lines :
  (exists e σ, load_from_file "tasks.json" (ToDoList_init fs) = (Raise e, σ)
               /\ main fs lines = (Crashed e, mkworld σ lines []))
  \/ (exists w, store_ok (store w) = true /\ files (store w) = fs /\ stdin w = lines
                /\ main fs lines = main_loop (S (length lines)) w).
Proof.
  unfold main, call. cbn [store stdin stdout].
  pose proof (store_ok_load "tasks.json" (ToDoList_init fs) eq_refl) as K.
  pose proof (files_load "tasks.json" (ToDoList_init fs)) as F.
  destruct (load_from_file "tasks.json" (ToDoList_init fs)) as [[[]|e] σ]; cbn [snd] in *.
  - right. exists (mkworld σ lines []). repeat split; assumption.
  - left. exists e, σ. split; reflexivity.
Qed.

(** X25. However the keyboard input goes, [main] ends, after at most one
    turn of the loop per line: after choice 9, at the end of the input, or by
    an exception. It never ends by [TaskNotFoundError], and it ends by
    [InvalidDateError] or [InvalidPriorityError] only when the load at the
    start raised it, before a line is read or anything is printed: inside the
    loop the three are always caught. *)
Theorem main_endings (fs : gmap string file) (lines : list string) :
  match main fs lines with
  | (Exited, _) | (InputClosed, _) => True
  | (Crashed e, w) =>
      e <> TaskNotFoundError
      /\ (menu_handles e = true -> stdin w = lines /\ stdout w = [])
  | (OutOfFuel, _) => False
  end.
Proof.
  destruct (main_cases fs lines) as [(e & σ & L & ->)|(w & K & F & Hin & ->)].
  - split; [|intros _; split; reflexivity].
    rewrite load_from_file_cases in L. cbn [files ToDoList_init] in L.
    destruct (fs !! "tasks.json") as [[doc|]|]; try discriminate.
    + destruct (from_dicts doc) as [l|e'] eqn:E; [discriminate|]. injection L as <- _.
      destruct (from_dicts_raises doc e' E) as [->|[->| ->]]; discriminate.
    + injection L as <- _. discriminate.
  - pose proof (main_loop_ends_well (S (length lines)) w K ltac:(rewrite Hin; lia)) as H.
    destruct (main_loop (S (length lines)) w) as [[ |e| | ] w']; cbn in H; try tauto.
    destruct H as [-> _]. split; discriminate.
Qed.

(** X26. The files are written at the exit only: when [main] ends in any other
    way, whatever was added, completed or deleted, the files are those it
    started with. *)
Theorem main_writes_at_exit_only (fs : gmap string file) (lines : list string) :
  fst (main fs lines) <> Exited -> files (store (snd (main fs lines))) = fs.
Proof.
  destruct (main_cases fs lines) as [(e & σ & L & ->)|(w & K & F & Hin & ->)].
  - intros _. pose proof (files_load "tasks.json" (ToDoList_init fs)) as F.
    rewrite L in F. exact F.
  - pose proof (main_loop_ends_well (S (length lines)) w K ltac:(rewrite Hin; lia)) as H.
    destruct (main_loop (S (length lines)) w) as [[ |e| | ] w']; cbn in *;
      intros N; try tauto; try congruence.
    destruct H; congruence.
Qed.

Lemma main_writes_at_exit_only_witness :
  files (store (snd (main ∅ ["1"; "Pay rent"; "2025-01-05"; "high"; "home";
                              "4"; "05/01/2025"; "9"]))) = ∅.
Proof.
  apply (main_writes_at_exit_only ∅ ["1"; "Pay rent"; "2025-01-05"; "high"; "home";
                                     "4"; "05/01/2025"; "9"]).
  vm_compute. discriminate.
Defined.

(** X27. After the exit, tasks.json holds the records of the tasks of the
    store. When all of them are due in the year 1000 or later, the load of
    the next run gives exactly that store; when one is due before, that load
    raises [InvalidDateError] and the next run ends at its start, whatever
    is typed. *)
Theorem main_exit_then_restart (fs : gmap string file) (lines : list string) (w : world) :
  main fs lines = (Exited, w) ->
  files (store w) = saved fs (store w)
  /\ load_from_file "tasks.json" (ToDoList_init (files (store w)))
     = (if years_ok (tasks (store w)) then (Ok tt, store w)
        else (Raise InvalidDateError, ToDoList_init (files (store w))))
  /\ (years_ok (tasks (store w)) = false ->
      forall lines', fst (main (files (store w)) lines') = Crashed InvalidDateError).
Proof.
  destruct (main_cases fs lines) as [(e & σ & L & ->)|(w0 & K & F & Hin & ->)]; [discriminate|].
  pose proof (main_loop_ends_well (S (length lines)) w0 K ltac:(rewrite Hin; lia)) as H.
  intros E. rewrite E in H. cbn in H. destruct H as [K' F']. rewrite F in F'.
  split; [exact F'|].
  assert (L : load_from_file "tasks.json" (ToDoList_init (files (store w)))
              = (if years_ok (tasks (store w)) then (Ok tt, store w)
                 else (Raise InvalidDateError, ToDoList_init (files (store w))))).
  { rewrite load_from_file_cases. cbn [files ToDoList_init]. rewrite F' at 1.
    unfold saved at 1. rewrite lookup_insert_eq, (from_dicts_to_dicts_cases _ K').
    destruct (years_ok (tasks (store w))); [|reflexivity].
    destruct (store w) as [l fs']. reflexivity. }
  split; [exact L|].
  intros Y lines'. unfold main, call. cbn [store]. rewrite L, Y. reflexivity.
Qed.

Lemma main_exit_then_restart_witness :
  (let w := snd (main ∅ ["1"; "Pay rent"; "2025-01-05"; "high"; "home"; "7"; "Pay rent"; "9"]) in
   files (store w) = saved ∅ (store w)
   /\ load_from_file "tasks.json" (ToDoList_init (files (store w))) = (Ok tt, store w)
   /\ (true = false ->
       forall lines', fst (main (files (store w)) lines') = Crashed InvalidDateError))
  /\ (let w := snd (main ∅ ["1"; "Old bill"; "0999-01-05"; "low"; EmptyString; "9"]) in
      files (store w) = saved ∅ (store w)
      /\ load_from_file "tasks.json" (ToDoList_init (files (store w)))
         = (Raise InvalidDateError, ToDoList_init (files (store w)))
      /\ (false = false ->
          forall lines', fst (main (files (store w)) lines') = Crashed InvalidDateError)).
Proof.
  split.
  - apply (main_exit_then_restart ∅
             ["1"; "Pay rent"; "2025-01-05"; "high"; "home"; "7"; "Pay rent"; "9"]).
    reflexivity.
  - apply (main_exit_then_restart ∅
             ["1"; "Old bill"; "0999-01-05"; "low"; EmptyString; "9"]).
    reflexivity.
Defined.

(* ===================================================================== *)
(** ** The menu: which turns change the store *)
(* ===================================================================== *)

Lemma reads_only_ret {A} (a : A) : reads_only (mret a : IO A).
Proof. intros w. reflexivity. Qed.

Lemma reads_only_bind {A B} (m : IO A) (k : A -> IO B) :
  reads_only m -> (forall a, reads_only (k a)) -> reads_only (m ≫= k).
Proof.
  intros Hm Hk w. specialize (Hm w). unfold mbind, IO_bind.
  destruct (m w) as [[a|e msg|] w1]; cbn [snd] in *; [|exact Hm|exact Hm].
  rewrite (Hk a w1). exact Hm.
Qed.

Lemma reads_only_print s : reads_only (print s).
Proof. intros w. reflexivity. Qed.

Lemma reads_only_input p : reads_only (input p).
Proof. intros w. unfold input. destruct (stdin w); reflexivity. Qed.

Lemma reads_only_print_tasks l : reads_only (print_tasks l).
Proof.
  induction l as [|t l IH]; cbn [print_tasks]; [apply reads_only_ret|].
  apply reads_only_bind; [apply reads_only_print|intros _; exact IH].
Qed.

Lemma reads_only_construct {A} (r : result A) : reads_only (construct r).
Proof. intros w. unfold construct. destruct r; reflexivity. Qed.

Lemma reads_only_list arg filter_by value : reads_only (call arg (list_tasks filter_by value)).
Proof.
  intros w. unfold call.
  pose proof (list_tasks_keeps_state_aux (store w) filter_by value) as H.
  destruct (list_tasks filter_by value (store w)) as [[r|e] σ]; cbn in *; exact H.
Qed.

Lemma completes_ret {A} (a : A) : completes (mret a : IO A).
Proof. intros w. exists a. reflexivity. Qed.

Lemma completes_print s : completes (print s).
Proof. intros w. exists tt. reflexivity. Qed.

Lemma completes_bind {A B} (m : IO A) (k : A -> IO B) :
  completes m -> (forall a, completes (k a)) -> completes (m ≫= k).
Proof.
  intros Hm Hk w. destruct (Hm w) as [a Ha]. unfold mbind, IO_bind.
  destruct (m w) as [o w1]. cbn in Ha. subst o. apply Hk.
Qed.

Lemma all_or_nothing_reads {A} (m : IO A) : reads_only m -> all_or_nothing m.
Proof. intros H w. right. apply H. Qed.

(** A step that reads only, then a step that is all or nothing. *)
Lemma all_or_nothing_after {A B} (m : IO A) (k : A -> IO B) :
  reads_only m -> (forall a, all_or_nothing (k a)) -> all_or_nothing (m ≫= k).
Proof.
  intros Hm Hk w. specialize (Hm w). unfold mbind, IO_bind.
  destruct (m w) as [[a|e msg|] w1]; cbn [snd] in *; [|right; exact Hm|right; exact Hm].
  destruct (Hk a w1) as [H|H]; [left; exact H|right; congruence].
Qed.

(** A step that is all or nothing, then steps that always return. *)
Lemma all_or_nothing_then {A B} (m : IO A) (k : A -> IO B) :
  all_or_nothing m -> (forall a, completes (k a)) -> all_or_nothing (m ≫= k).
Proof.
  intros Hm Hk w. unfold mbind, IO_bind. destruct (Hm w) as [[a Ha]|H].
  - left. destruct (m w) as [o w1]. cbn in Ha. subst o. apply Hk.
  - destruct (m w) as [[a|e msg|] w1]; cbn [snd] in *;
      [left; apply Hk|right; exact H|right; exact H].
Qed.

(** A method call that, when it raises, has not changed the store. *)
Lemma all_or_nothing_call {A} arg (m : M A) :
  (forall σ e σ', m σ = (Raise e, σ') -> σ' = σ) -> all_or_nothing (call arg m).
Proof.
  intros H w. unfold call. destruct (m (store w)) as [[a|e] σ] eqn:E.
  - left. exists a. reflexivity.
  - right. cbn. apply (H _ _ _ E).
Qed.

Lemma remove_task_raises d σ e σ' : remove_task d σ = (Raise e, σ') -> σ' = σ.
Proof.
  destruct (remove_task_outcome d σ) as [R|(l1 & t & l2 & _ & _ & _ & R)];
    rewrite R; congruence.
Qed.

Lemma mark_completed_raises d σ e σ' : mark_completed d σ = (Raise e, σ') -> σ' = σ.
Proof.
  destruct (mark_completed_outcome d σ) as [R|(l1 & t & l2 & _ & _ & _ & R)];
    rewrite R; congruence.
Qed.

#[local] Hint Resolve reads_only_ret reads_only_print reads_only_input
  reads_only_print_tasks reads_only_construct reads_only_list
  completes_ret completes_print : menu.

(** A branch of the menu that ends with prints and the result. *)
Ltac run_tail :=
  repeat first [ apply completes_ret | apply completes_print
               | apply completes_bind; [|intros ?] ].

(** A branch of the menu made of steps that read only. *)
Ltac run_reads :=
  repeat first [ solve [eauto with menu]
               | apply reads_only_bind; [|intros ?] ].

(** The method call of a branch, after its inputs and before its prints. *)
Ltac run_call lem :=
  repeat (apply all_or_nothing_after; [solve [eauto with menu]|intros ?]);
  apply all_or_nothing_then; [apply all_or_nothing_call; lem|intros ?; run_tail].

Lemma choose_all_or_nothing choice : all_or_nothing (choose choice).
Proof.
  unfold choose.
  repeat match goal with
         | |- context [if String.eqb choice ?c then _ else _] =>
             destruct (String.eqb choice c)
         end.
  - run_call ltac:(intros σ e σ' [=]).
  - apply all_or_nothing_reads. run_reads. destruct a; eauto with menu.
  - apply all_or_nothing_reads. run_reads.
  - apply all_or_nothing_reads. run_reads.
  - apply all_or_nothing_reads. run_reads.
  - apply all_or_nothing_reads. run_reads.
  - run_call ltac:(apply mark_completed_raises).
  - run_call ltac:(apply remove_task_raises).
  - run_call ltac:(intros σ e σ' [=]).
  - apply all_or_nothing_reads. run_reads.
Qed.

Lemma choose_reads_only choice :
  ~ In choice ["1"; "7"; "8"; "9"] -> reads_only (choose choice).
Proof.
  intros N. unfold choose.
  repeat match goal with
         | |- context [if String.eqb choice ?c then _ else _] =>
             destruct (String.eqb_spec choice c) as [->|?]
         end;
    try (exfalso; apply N; cbn; tauto); run_reads.
  destruct a; eauto with menu.
Qed.

Lemma try_menu_store body w : store (snd (try_menu body w)) = store (snd (body w)).
Proof.
  unfold try_menu. destruct (body w) as [[nx|e msg|] w1]; try reflexivity.
  destruct (menu_handles e); reflexivity.
Qed.

(** X28. A turn of the menu changes the store only for the choices 1, 7, 8 and 9,
    and only when the chosen action goes through: after a refused task, a
    description that is not found, a date that does not parse or the end of
    the input, and for every other choice, the store is the one before. *)
Theorem turn_changes_store (choice : string) (w : world) :
  store (snd (try_menu (choose choice) w)) = store w
  \/ (In choice ["1"; "7"; "8"; "9"] /\ exists nx, fst (choose choice w) = Done nx).
Proof.
  rewrite try_menu_store.
  destruct (in_dec string_dec choice ["1"; "7"; "8"; "9"]) as [Y|N].
  - destruct (choose_all_or_nothing choice w) as [H|H]; [right; split; assumption|left; exact H].
  - left. apply choose_reads_only, N.
Qed.
